(** * VirtualContent: chunk splitter, geometry cache and window engine

    A shallow embedding of [src/main.ts] (class [VirtualContent]) and the
    properties of its chunking algorithm, its geometry cache, its pointer
    resolver, its two window policies and their rendering, its scroll
    handler and the instance tracker.

    JavaScript strings are sequences of UTF-16 code units; arrays are lists,
    sparse arrays are lists of optional entries; the numbers the engine
    computes with (indexes, lengths, pixel offsets read from the DOM) are
    integers and are modelled by [nat] and [Z]. *)

From Stdlib Require Import ZArith Lia Ascii String.
From stdpp Require Import base numbers option list.

Local Open Scope Z_scope.

(** ** JavaScript values and string primitives *)

Module Js.

(** A UTF-16 code unit. *)
Definition code_unit := N.

Definition JsString := list code_unit.

(** Code units of an ASCII literal, for readable examples. *)
Definition str (s : string) : JsString :=
  N_of_ascii <$> list_ascii_of_string s.

Definition LT : code_unit := 60%N.  (* '<' *)
Definition GT : code_unit := 62%N.  (* '>' *)

(** [String.prototype.substring(start, end)] for non-negative integer
    arguments: both are clamped to the length and swapped when out of
    order. *)
Definition substring (s : JsString) (start end_ : nat) : JsString :=
  let len := length s in
  let a := (start `min` len)%nat in
  let b := (end_ `min` len)%nat in
  let from := (a `min` b)%nat in
  let to := (a `max` b)%nat in
  take (to - from) (drop from s).

(** Relative index of [slice]: negative counts from the end. *)
Definition slice_index (len : nat) (k : Z) : nat :=
  if k <? 0 then Z.to_nat (Z.max (Z.of_nat len + k) 0)
  else (Z.to_nat k `min` len)%nat.

(** [slice(start, end)] and [slice(start)], on strings and on arrays. *)
Definition slice {A} (l : list A) (start end_ : Z) : list A :=
  let from := slice_index (length l) start in
  let to := slice_index (length l) end_ in
  take (to - from) (drop from l).

Definition slice_from {A} (l : list A) (start : Z) : list A :=
  drop (slice_index (length l) start) l.

(** [lastIndexOf(c)]: the greatest index holding [c], or -1. *)
Fixpoint lastIndexOf_from (c : code_unit) (s : JsString) (i : Z) (found : Z) : Z :=
  match s with
  | [] => found
  | x :: rest => lastIndexOf_from c rest (i + 1) (if N.eqb x c then i else found)
  end.

Definition lastIndexOf (c : code_unit) (s : JsString) : Z :=
  lastIndexOf_from c s 0 (-1).

(** [indexOf(c)]: the least index holding [c], or -1. *)
Fixpoint indexOf_from (c : code_unit) (s : JsString) (i : Z) : Z :=
  match s with
  | [] => -1
  | x :: rest => if N.eqb x c then i else indexOf_from c rest (i + 1)
  end.

Definition indexOf (c : code_unit) (s : JsString) : Z := indexOf_from c s 0.

(** Numbers, as far as the engine's argument validation tells them apart.
    A finite number is carried by its canonical rendering, the result of
    ECMAScript's Number::toString, which determines the number up to the
    sign of zero. *)
Inductive JsNumber :=
| NaN
| Infinity (negative : bool)
| Finite (rendering : JsString).

Inductive JsValue :=
| VUndefined
| VNull
| VBoolean (b : bool)
| VNumber (n : JsNumber)
| VString (s : JsString)
| VBigInt (z : Z)
| VSymbol
| VObject.  (* objects, arrays and functions *)

Definition isNaN (n : JsNumber) : bool :=
  match n with NaN => true | _ => false end.

(** Number::toString. *)
Definition NumberToString (n : JsNumber) : JsString :=
  match n with
  | NaN => str "NaN"
  | Infinity false => str "Infinity"
  | Infinity true => str "-Infinity"
  | Finite r => r
  end.

(** ToBoolean. *)
Definition truthy (v : JsValue) : bool :=
  match v with
  | VUndefined | VNull => false
  | VBoolean b => b
  | VNumber NaN => false
  | VNumber (Infinity _) => true
  | VNumber (Finite r) => negb (bool_decide (r = str "0"))
  | VString s => negb (bool_decide (s = []))
  | VBigInt z => negb (z =? 0)
  | VSymbol | VObject => true
  end.

(** Writing [a[i] = v] on an array: past the end the array grows and the
    skipped slots are holes. *)
Definition array_set {A} (a : list (option A)) (i : nat) (v : A) : list (option A) :=
  if (i <? length a)%nat then <[i := Some v]> a
  else a ++ replicate (i - length a) None ++ [Some v].

(** Reading [a[i]]: [None] stands for [undefined] (a hole or past the end). *)
Definition array_get {A} (a : list (option A)) (i : nat) : option A :=
  mjoin (a !! i).

End Js.

Import Js.

(** ** Chunk splitter *)

(** [Math.ceil(a / b)] for a non-negative integer [a] and a positive
    integer [b]. *)
Definition ceil_div (a b : nat) : nat := ((a + b - 1) / b)%nat.

(** [splitString]: an array of [ceil(str.length / chunkLength)] slots, slot
    [i] mapped to [str.substring(i * chunkLength, i * chunkLength + chunkLength)].
    The constructor never stores a zero [chunkLength] (it falls back to the
    default), and the division by zero is not modelled. *)
Definition splitString (str : JsString) (chunkLength : nat) : list JsString :=
  (fun i : nat =>
     let offset := (i * chunkLength)%nat in
     substring str offset (offset + chunkLength))
  <$> seq 0 (ceil_div (length str) chunkLength).

(** [!chunks[k]]: the slot is past the end, or holds the empty string. *)
Definition falsy_chunk (c : option JsString) : bool :=
  match c with
  | None => true
  | Some s => negb (truthy (VString s))
  end.

(** One pass of the body of the [for] loop of [splitHtml] at index [i]. *)
Definition splitHtml_body (i : nat) (chunks : list JsString) : list JsString :=
  match chunks !! i with
  | None => chunks
  | Some cur =>
      let openTag := lastIndexOf LT cur in
      let closeTag := lastIndexOf GT cur in
      let unclosedTagFound := closeTag <? openTag in
      let lastChunk := falsy_chunk (chunks !! S i) in
      if negb unclosedTagFound || lastChunk then chunks
      else
        match chunks !! S i with
        | None => chunks
        | Some next =>
            let nextChunkCloseTag := lastIndexOf GT next + 1 in
            if Z.of_nat (length cur) - openTag <? nextChunkCloseTag then
              let chunks1 := <[S i := slice_from cur openTag ++ next]> chunks in
              <[i := slice cur 0 openTag]> chunks1
            else
              let chunks1 := <[i := cur ++ slice next 0 nextChunkCloseTag]> chunks in
              <[S i := slice_from next nextChunkCloseTag]> chunks1
        end
  end.

(** [for (let i = 0; i < chunks.length; i++) body]: [fuel] bounds the
    number of passes. *)
Fixpoint splitHtml_loop (fuel : nat) (i : nat) (chunks : list JsString) : list JsString :=
  match fuel with
  | O => chunks
  | S fuel' =>
      if (i <? length chunks)%nat
      then splitHtml_loop fuel' (S i) (splitHtml_body i chunks)
      else chunks
  end.

Definition splitHtml (str : JsString) (chunkLength : nat) : list JsString :=
  let chunks := splitString str chunkLength in
  splitHtml_loop (length chunks) 0 chunks.

(** ** Instance state *)

Inductive Mode := REPLACE_MODE | APPEND_MODE.
Inductive ContentType := HTML_TYPE | TEXT_TYPE.

Definition DEFAULT_CHUNK_SIZE : nat := Z.to_nat 10240.
Definition DEFAULT_THRESHOLD : Z := 2.

(** What [calculateChunkData] reads from a rendered chunk element. The DOM
    reports these as integers. *)
Record ChunkData := {
  cd_leftPad : Z;
  cd_offsetHeight : Z;
  cd_offsetTop : Z;
}.

(** The [extras] argument of [storeChunkData]: a field is [Some] exactly
    when [typeof] finds a number in it. *)
Record Extras := {
  offsetTop : option Z;
  offsetHeight : option Z;
  leftPad : option Z;
}.

Definition extras_of (d : ChunkData) : Extras :=
  {| offsetTop := Some (cd_offsetTop d);
     offsetHeight := Some (cd_offsetHeight d);
     leftPad := Some (cd_leftPad d) |}.

(** The part of the document the engine reads: whether [el] is attached,
    the scroll position of the scrollable element, the positions needed by
    [getOffsetToScrollableEl], the width of [el], and the geometry the
    layout gives to the chunk element with a given index. What is drawn is
    not part of the model. *)
Record Dom := {
  parentNode : bool;
  scrollTop : Z;
  elIsScrollableEl : bool;
  elRectTop : Z;
  scrollableRectTop : Z;
  offsetWidth : Z;
  layout : nat -> ChunkData;
}.

Record VirtualContent := {
  chunkLength : nat;
  mode : Mode;
  threshold : Z;
  contentType : ContentType;
  chunks : list JsString;
  heights : list (option Z);
  lastWidth : option Z;
  leftPads : list (option Z);
  offsets : list (option Z);
  pointer : Z;
  visibleIndexes : list nat;
  dom : Dom;
}.

Definition set_contentType (v : ContentType) (vc : VirtualContent) : VirtualContent :=
  {| chunkLength := chunkLength vc; mode := mode vc; threshold := threshold vc;
     contentType := v; chunks := chunks vc; heights := heights vc;
     lastWidth := lastWidth vc; leftPads := leftPads vc; offsets := offsets vc;
     pointer := pointer vc; visibleIndexes := visibleIndexes vc; dom := dom vc |}.

Definition set_chunks (v : list JsString) (vc : VirtualContent) : VirtualContent :=
  {| chunkLength := chunkLength vc; mode := mode vc; threshold := threshold vc;
     contentType := contentType vc; chunks := v; heights := heights vc;
     lastWidth := lastWidth vc; leftPads := leftPads vc; offsets := offsets vc;
     pointer := pointer vc; visibleIndexes := visibleIndexes vc; dom := dom vc |}.

Definition set_heights (v : list (option Z)) (vc : VirtualContent) : VirtualContent :=
  {| chunkLength := chunkLength vc; mode := mode vc; threshold := threshold vc;
     contentType := contentType vc; chunks := chunks vc; heights := v;
     lastWidth := lastWidth vc; leftPads := leftPads vc; offsets := offsets vc;
     pointer := pointer vc; visibleIndexes := visibleIndexes vc; dom := dom vc |}.

Definition set_leftPads (v : list (option Z)) (vc : VirtualContent) : VirtualContent :=
  {| chunkLength := chunkLength vc; mode := mode vc; threshold := threshold vc;
     contentType := contentType vc; chunks := chunks vc; heights := heights vc;
     lastWidth := lastWidth vc; leftPads := v; offsets := offsets vc;
     pointer := pointer vc; visibleIndexes := visibleIndexes vc; dom := dom vc |}.

Definition set_offsets (v : list (option Z)) (vc : VirtualContent) : VirtualContent :=
  {| chunkLength := chunkLength vc; mode := mode vc; threshold := threshold vc;
     contentType := contentType vc; chunks := chunks vc; heights := heights vc;
     lastWidth := lastWidth vc; leftPads := leftPads vc; offsets := v;
     pointer := pointer vc; visibleIndexes := visibleIndexes vc; dom := dom vc |}.

Definition set_pointer (v : Z) (vc : VirtualContent) : VirtualContent :=
  {| chunkLength := chunkLength vc; mode := mode vc; threshold := threshold vc;
     contentType := contentType vc; chunks := chunks vc; heights := heights vc;
     lastWidth := lastWidth vc; leftPads := leftPads vc; offsets := offsets vc;
     pointer := v; visibleIndexes := visibleIndexes vc; dom := dom vc |}.

Definition set_visibleIndexes (v : list nat) (vc : VirtualContent) : VirtualContent :=
  {| chunkLength := chunkLength vc; mode := mode vc; threshold := threshold vc;
     contentType := contentType vc; chunks := chunks vc; heights := heights vc;
     lastWidth := lastWidth vc; leftPads := leftPads vc; offsets := offsets vc;
     pointer := pointer vc; visibleIndexes := v; dom := dom vc |}.

Definition set_scrollTop (v : Z) (vc : VirtualContent) : VirtualContent :=
  {| chunkLength := chunkLength vc; mode := mode vc; threshold := threshold vc;
     contentType := contentType vc; chunks := chunks vc; heights := heights vc;
     lastWidth := lastWidth vc; leftPads := leftPads vc; offsets := offsets vc;
     pointer := pointer vc; visibleIndexes := visibleIndexes vc;
     dom := {| parentNode := parentNode (dom vc); scrollTop := v;
               elIsScrollableEl := elIsScrollableEl (dom vc);
               elRectTop := elRectTop (dom vc);
               scrollableRectTop := scrollableRectTop (dom vc);
               offsetWidth := offsetWidth (dom vc); layout := layout (dom vc) |} |}.

(** The options the constructor reads; an absent or falsy option falls back
    to its default. *)
Record VirtualContentOptions := {
  opt_chunkSize : option nat;
  opt_append : option bool;
  opt_threshold : option Z;
  opt_type : option ContentType;
}.

Definition create (options : VirtualContentOptions) (d : Dom) : VirtualContent :=
  {| chunkLength :=
       match opt_chunkSize options with
       | Some (S k) => S k
       | _ => DEFAULT_CHUNK_SIZE
       end;
     mode := if default false (opt_append options) then APPEND_MODE else REPLACE_MODE;
     threshold :=
       match opt_threshold options with
       | Some t => if t =? 0 then DEFAULT_THRESHOLD else t
       | None => DEFAULT_THRESHOLD
       end;
     contentType := default HTML_TYPE (opt_type options);
     chunks := [];
     heights := [];
     lastWidth := None;
     leftPads := [];
     offsets := [];
     pointer := 0;
     visibleIndexes := [];
     dom := d |}.

(** ** Methods as state transformers that may throw *)

Inductive Exn :=
| TypeError (msg : string)
| Error (msg : string).

(** A method runs on the instance and either throws or returns; what it
    wrote to the instance before throwing stays written. *)
Definition M (A : Type) : Type := VirtualContent -> (Exn + A) * VirtualContent.

#[global] Instance M_ret : MRet M := fun A a vc => (inr a, vc).

#[global] Instance M_bind : MBind M := fun A B k m vc =>
  match m vc with
  | (inl e, vc') => (inl e, vc')
  | (inr a, vc') => k a vc'
  end.

#[global] Instance M_throw : MThrow Exn M := fun A e vc => (inl e, vc).

Definition get : M VirtualContent := fun vc => (inr vc, vc).
Definition modify (f : VirtualContent -> VirtualContent) : M unit :=
  fun vc => (inr tt, f vc).

(** A number read from a sparse array is falsy when the slot is empty or
    holds 0. *)
Definition falsy_number (o : option Z) : bool :=
  match o with
  | None => true
  | Some z => z =? 0
  end.

(** [a[i] || 0]. *)
Definition or_zero (o : option Z) : Z :=
  if falsy_number o then 0 else default 0 o.

Definition getChunkHeight (vc : VirtualContent) (i : nat) : Z :=
  or_zero (array_get (heights vc) i).

Definition getChunkLeftPad (vc : VirtualContent) (chunkIndex : nat) : Z :=
  or_zero (array_get (leftPads vc) chunkIndex).

Definition getChunkOffsetTop (vc : VirtualContent) (chunkIndex : nat) : Z :=
  or_zero (array_get (offsets vc) chunkIndex).

(** A hole in the summed slice is skipped by [reduce]; a negative
    [chunkIndex] is not passed by the engine. *)
Definition getBottomFillerHeightFor (vc : VirtualContent) (chunkIndex : Z) : Z :=
  let hs := slice (heights vc) chunkIndex (Z.of_nat (length (chunks vc))) in
  foldl (fun result value => result + default 0 value) 0 hs.

Definition getChunkRangeForReplacement (vc : VirtualContent) (pointer : Z) : Z * Z :=
  let min := 0 in
  let max := Z.of_nat (length (chunks vc)) in
  let threshold := threshold vc in
  let startOffset := pointer - threshold in
  let endOffset := pointer + threshold in
  if (startOffset <? min) && (max <? endOffset) then (min, max)
  else
    let '(startOffset, endOffset) :=
      if startOffset <? min
      then (min, endOffset + Z.abs (min - startOffset))
      else (startOffset, endOffset) in
    let '(startOffset, endOffset) :=
      if max <? endOffset
      then (startOffset - endOffset + max, max)
      else (startOffset, endOffset) in
    (Z.max startOffset min, Z.min endOffset max).

Definition getScrollTop (vc : VirtualContent) : Z := scrollTop (dom vc).

Definition getOffsetToScrollableEl (vc : VirtualContent) : Z :=
  if elIsScrollableEl (dom vc) then 0
  else elRectTop (dom vc) + scrollTop (dom vc) - scrollableRectTop (dom vc).

Definition getScrollTopForChunks (vc : VirtualContent) : Z :=
  getScrollTop vc - getOffsetToScrollableEl vc.

(** The scan of [getCurrentPointer] from index [i]; [fuel] bounds the
    number of passes. *)
Fixpoint getCurrentPointer_loop (vc : VirtualContent) (limit : nat) (fuel : nat) (i : nat) : Z :=
  match fuel with
  | O => Z.of_nat (length (offsets vc)) - 1
  | S fuel' =>
      if (i <? limit)%nat then
        if getScrollTopForChunks vc <? getChunkOffsetTop vc i
        then Z.of_nat i - 1
        else getCurrentPointer_loop vc limit fuel' (S i)
      else Z.of_nat (length (offsets vc)) - 1
  end.

Definition getCurrentPointer (vc : VirtualContent) : Z :=
  let limit := length (offsets vc) in
  getCurrentPointer_loop vc limit limit 0.

Definition getLastVisible (vc : VirtualContent) : Z :=
  match last (visibleIndexes vc) with
  | Some i => Z.of_nat i
  | None => -1
  end.

(** [visibleIndexes.indexOf(p) === -1]. *)
Definition not_visible (vc : VirtualContent) (p : Z) : bool :=
  negb (existsb (fun v => Z.of_nat v =? p) (visibleIndexes vc)).

(** The append-mode scan of [needUpdate]. *)
Fixpoint needUpdate_loop (vc : VirtualContent) (limit : Z) (fuel : nat) (nextPointer : Z) : bool :=
  match fuel with
  | O => false
  | S fuel' =>
      if nextPointer <? limit then
        if not_visible vc nextPointer then true
        else needUpdate_loop vc limit fuel' (nextPointer + 1)
      else false
  end.

Definition range_differs (prev next : Z * Z) : bool :=
  negb (prev.1 =? next.1) || negb (prev.2 =? next.2).

Definition needUpdate (prevPointer nextPointer : Z) : M bool :=
  vc ← get;
  match mode vc with
  | REPLACE_MODE =>
      if prevPointer =? nextPointer then mret false
      else
        let prev := getChunkRangeForReplacement vc prevPointer in
        let next := getChunkRangeForReplacement vc nextPointer in
        mret (range_differs prev next)
  | APPEND_MODE =>
      let limit := Z.min (nextPointer + threshold vc) (Z.of_nat (length (chunks vc))) in
      mret (needUpdate_loop vc limit (Z.to_nat (limit - nextPointer)) nextPointer)
  end.

(** [storeChunkData]: each measurement is written when it is a number and
    the slot of [chunkIndex] is falsy (empty, or holding 0). *)
Definition storeChunkData (chunkIndex : nat) (extras : Extras) : M unit :=
  vc ← get;
  (match offsetTop extras with
   | Some v =>
       if falsy_number (array_get (offsets vc) chunkIndex)
       then modify (set_offsets (array_set (offsets vc) chunkIndex v))
       else mret tt
   | None => mret tt
   end);;
  vc ← get;
  (match offsetHeight extras with
   | Some v =>
       if falsy_number (array_get (heights vc) chunkIndex)
       then modify (set_heights (array_set (heights vc) chunkIndex v))
       else mret tt
   | None => mret tt
   end);;
  vc ← get;
  match leftPad extras with
  | Some v =>
      if falsy_number (array_get (leftPads vc) chunkIndex)
      then modify (set_leftPads (array_set (leftPads vc) chunkIndex v))
      else mret tt
  | None => mret tt
  end.

Definition calculateChunkData (vc : VirtualContent) (chunkIndex : nat) : ChunkData :=
  layout (dom vc) chunkIndex.

(** The loop of [updateContentWithAppend]: the chunk element of index [i]
    is appended, its offset is written over whatever the slot held, and [i]
    becomes visible. *)
Fixpoint updateContentWithAppend_loop (last : Z) (fuel : nat) (i : nat) : M unit :=
  match fuel with
  | O => mret tt
  | S fuel' =>
      if Z.of_nat i <? last then
        vc ← get;
        modify (set_offsets
                  (array_set (offsets vc) i (cd_offsetTop (calculateChunkData vc i))));;
        vc ← get;
        modify (set_visibleIndexes (visibleIndexes vc ++ [i]));;
        updateContentWithAppend_loop last fuel' (S i)
      else mret tt
  end.

Definition updateContentWithAppend (prevPointer pointer : Z) : M unit :=
  vc ← get;
  let threshold := threshold vc in
  let first := let v := getLastVisible vc + 1 in if v =? 0 then 0 else v in
  let last := Z.min (pointer + threshold) (Z.of_nat (length (chunks vc))) in
  updateContentWithAppend_loop last (Z.to_nat (last - first)) (Z.to_nat first).

(** The callback that [updateContentWithReplace] maps over
    [chunks.slice(startOffset, endOffset)]; [startOffset] is never negative. *)
Definition updateContentWithReplace_chunk (startOffset : Z) (i : nat) : M unit :=
  vc ← get;
  let chunkIndex := Z.to_nat (startOffset + Z.of_nat i) in
  storeChunkData chunkIndex (extras_of (calculateChunkData vc chunkIndex));;
  vc ← get;
  modify (set_visibleIndexes (visibleIndexes vc ++ [chunkIndex])).

Fixpoint for_each (f : nat -> M unit) (idxs : list nat) : M unit :=
  match idxs with
  | [] => mret tt
  | i :: rest => f i;; for_each f rest
  end.

Definition updateContentWithReplace (prevPointer pointer : Z) : M unit :=
  vc ← get;
  let '(startOffset, endOffset) := getChunkRangeForReplacement vc pointer in
  modify (set_visibleIndexes []);;
  let visible := slice (chunks vc) startOffset endOffset in
  for_each (updateContentWithReplace_chunk startOffset) (seq 0 (length visible)).

(** [updateContent] forwards its own arguments, and every call site calls
    it without any: both pointers take their default, 0. *)
Definition updateContent : M unit :=
  vc ← get;
  match mode vc with
  | APPEND_MODE => updateContentWithAppend 0 0
  | REPLACE_MODE => updateContentWithReplace 0 0
  end.

Definition validateString (str : JsValue) : Exn + JsString :=
  match str with
  | VString s => inr s
  | VNumber n =>
      if negb (isNaN n) then inr (NumberToString n)
      else if negb (truthy str) then inr []
      else inl (TypeError "Not a string")
  | _ =>
      if negb (truthy str) then inr []
      else inl (TypeError "Not a string")
  end.

Definition lift {A} (r : Exn + A) : M A := fun vc => (r, vc).

Definition scrollToTop : M unit := modify (set_scrollTop 0).

Definition setHtml (html : JsValue) : M unit :=
  html ← lift (validateString html);
  modify (set_contentType HTML_TYPE);;
  vc ← get;
  modify (set_chunks (splitHtml html (chunkLength vc)));;
  modify (set_pointer 0);;
  modify (set_heights []);;
  modify (set_leftPads []);;
  modify (set_offsets []);;
  modify (set_visibleIndexes []);;
  scrollToTop;;
  vc ← get;
  if parentNode (dom vc) then updateContent else mret tt.

(** The parameter of [setText] defaults to the empty string when the
    argument is [undefined]. *)
Definition setText (arg : JsValue) : M unit :=
  let str := match arg with VUndefined => VString [] | _ => arg end in
  str ← lift (validateString str);
  modify (set_contentType TEXT_TYPE);;
  vc ← get;
  modify (set_chunks (splitString str (chunkLength vc)));;
  modify (set_pointer 0);;
  modify (set_heights []);;
  modify (set_leftPads []);;
  modify (set_offsets []);;
  modify (set_visibleIndexes []);;
  scrollToTop;;
  vc ← get;
  if parentNode (dom vc) then updateContent else mret tt.

(** ** The repair rule as the specification words it

    The pass of [splitHtml] with the crossing tag taken to close at the
    FIRST '>' of the next chunk, to be compared with [splitHtml_body]. *)
Definition splitHtml_body_first_close (i : nat) (chunks : list JsString) : list JsString :=
  match chunks !! i with
  | None => chunks
  | Some cur =>
      let openTag := lastIndexOf LT cur in
      let closeTag := lastIndexOf GT cur in
      let unclosedTagFound := closeTag <? openTag in
      let lastChunk := falsy_chunk (chunks !! S i) in
      if negb unclosedTagFound || lastChunk then chunks
      else
        match chunks !! S i with
        | None => chunks
        | Some next =>
            let nextChunkCloseTag := indexOf GT next + 1 in
            if Z.of_nat (length cur) - openTag <? nextChunkCloseTag then
              let chunks1 := <[S i := slice_from cur openTag ++ next]> chunks in
              <[i := slice cur 0 openTag]> chunks1
            else
              let chunks1 := <[i := cur ++ slice next 0 nextChunkCloseTag]> chunks in
              <[S i := slice_from next nextChunkCloseTag]> chunks1
        end
  end.

Fixpoint splitHtml_first_close_loop (fuel : nat) (i : nat) (chunks : list JsString)
    : list JsString :=
  match fuel with
  | O => chunks
  | S fuel' =>
      if (i <? length chunks)%nat
      then splitHtml_first_close_loop fuel' (S i) (splitHtml_body_first_close i chunks)
      else chunks
  end.

Definition splitHtml_first_close (str : JsString) (chunkLength : nat) : list JsString :=
  let chunks := splitString str chunkLength in
  splitHtml_first_close_loop (length chunks) 0 chunks.

(** ** A sample instance

    A document whose layout stacks chunk elements of height 10, and an
    instance created on it in replace mode with chunks of 5 code units. *)
Definition sample_dom : Dom :=
  {| parentNode := true; scrollTop := 0; elIsScrollableEl := true;
     elRectTop := 0; scrollableRectTop := 0; offsetWidth := 100;
     layout := fun i =>
       {| cd_leftPad := 0; cd_offsetHeight := 10; cd_offsetTop := 10 * Z.of_nat i |} |}.

Definition sample : VirtualContent :=
  create {| opt_chunkSize := Some 5%nat; opt_append := None;
            opt_threshold := None; opt_type := None |} sample_dom.

(** The sample instance holding ten chunks. *)
Definition sample10 : VirtualContent :=
  set_chunks (splitString (str "0123456789abcdefghijklmnopqrstuvwxyz0123456789ABCD") 5) sample.

(** ** The pointer resolver as the specification words it *)

(** The offset recorded for an index, if any. *)
Definition recorded_offset (vc : VirtualContent) (j : nat) : option Z :=
  array_get (offsets vc) j.

(** [r] is the greatest index whose recorded offset is at most the
    effective scroll position. *)
Definition greatest_recorded_at_or_below (vc : VirtualContent) (r : Z) : Prop :=
  (exists (j : nat) (o : Z),
     r = Z.of_nat j /\ recorded_offset vc j = Some o /\ o <= getScrollTopForChunks vc) /\
  (forall (j : nat) (o : Z),
     recorded_offset vc j = Some o -> o <= getScrollTopForChunks vc -> Z.of_nat j <= r).

(** When no recorded offset exceeds the effective scroll position, the
    resolver answers the last chunk index. *)
Definition resolves_to_last_chunk (vc : VirtualContent) : Prop :=
  (forall (j : nat) (o : Z),
     recorded_offset vc j = Some o -> o <= getScrollTopForChunks vc) ->
  getCurrentPointer vc = Z.of_nat (length (chunks vc)) - 1.

(** The offsets the resolver reads do not decrease along the cache. *)
Definition offsets_non_decreasing (vc : VirtualContent) : Prop :=
  forall i j : nat,
    (i <= j < length (offsets vc))%nat ->
    getChunkOffsetTop vc i <= getChunkOffsetTop vc j.

(** A cache whose third offset lies above its second, scrolled to 7. *)
Definition unordered_cache : VirtualContent :=
  set_scrollTop 7 (set_offsets [Some 0; Some 10; Some 5] sample10).

(** The sample instance after [setText] of fifty code units (ten chunks,
    of which the first four are rendered and measured), scrolled to 1000. *)
Definition scrolled_past_measured : VirtualContent :=
  set_scrollTop 1000
    (setText (VString (str "0123456789abcdefghijklmnopqrstuvwxyz0123456789ABCD")) sample).2.

(** The same instance scrolled to 15, between its second and third chunk. *)
Definition scrolled_within_measured : VirtualContent :=
  set_scrollTop 15
    (setText (VString (str "0123456789abcdefghijklmnopqrstuvwxyz0123456789ABCD")) sample).2.

(** Measurements of a chunk element at the very top of its container, and
    of one laid out 5 pixels lower, 12 high and indented by 3. *)
Definition measured_at_top : Extras :=
  {| offsetTop := Some 0; offsetHeight := Some 0; leftPad := Some 0 |}.

Definition measured_lower : Extras :=
  {| offsetTop := Some 5; offsetHeight := Some 12; leftPad := Some 3 |}.

(** ** What [typeof] tells about an argument *)

Definition is_string (v : JsValue) : bool :=
  match v with VString _ => true | _ => false end.

Definition is_number (v : JsValue) : bool :=
  match v with VNumber _ => true | _ => false end.

Definition is_finite_number (v : JsValue) : bool :=
  match v with VNumber (Finite _) => true | _ => false end.

Definition is_number_other_than_NaN (v : JsValue) : bool :=
  match v with VNumber n => negb (isNaN n) | _ => false end.

(** The instance right after the assignments of [setText] / [setHtml],
    before the content is rendered. *)
Definition content_replaced (ty : ContentType) (newChunks : list JsString)
    (vc : VirtualContent) : VirtualContent :=
  set_scrollTop 0
    (set_visibleIndexes []
       (set_offsets []
          (set_leftPads []
             (set_heights []
                (set_pointer 0
                   (set_chunks newChunks (set_contentType ty vc))))))).

(** The arguments [validateString] throws on: not a string, not a number
    other than NaN, and truthy. *)
Definition rejected (v : JsValue) : bool :=
  negb (is_string v) && negb (is_number_other_than_NaN v) && truthy v.

(** ** Width tracking, scrolling and attaching *)

Definition set_lastWidth (v : option Z) (vc : VirtualContent) : VirtualContent :=
  {| chunkLength := chunkLength vc; mode := mode vc; threshold := threshold vc;
     contentType := contentType vc; chunks := chunks vc; heights := heights vc;
     lastWidth := v; leftPads := leftPads vc; offsets := offsets vc;
     pointer := pointer vc; visibleIndexes := visibleIndexes vc; dom := dom vc |}.

(** [el] gets a parent node. *)
Definition set_parentNode (v : bool) (vc : VirtualContent) : VirtualContent :=
  {| chunkLength := chunkLength vc; mode := mode vc; threshold := threshold vc;
     contentType := contentType vc; chunks := chunks vc; heights := heights vc;
     lastWidth := lastWidth vc; leftPads := leftPads vc; offsets := offsets vc;
     pointer := pointer vc; visibleIndexes := visibleIndexes vc;
     dom := {| parentNode := v; scrollTop := scrollTop (dom vc);
               elIsScrollableEl := elIsScrollableEl (dom vc);
               elRectTop := elRectTop (dom vc);
               scrollableRectTop := scrollableRectTop (dom vc);
               offsetWidth := offsetWidth (dom vc); layout := layout (dom vc) |} |}.

Definition isHtmlContent (vc : VirtualContent) : bool :=
  match contentType vc with HTML_TYPE => true | TEXT_TYPE => false end.

(** [this.el.offsetWidth !== this.lastWidth]; [lastWidth] starts as [null]. *)
Definition widthHasChanged (vc : VirtualContent) : bool :=
  negb (bool_decide (lastWidth vc = Some (offsetWidth (dom vc)))).

Definition storeWidth (num : Z) : M unit := modify (set_lastWidth (Some num)).

Definition recalculate : M unit :=
  vc ← get;
  storeWidth (offsetWidth (dom vc)).

Definition setScrollTop (newValue : Z) : M unit := modify (set_scrollTop newValue).

(** The scroll handler, as it runs once the throttle lets it through.
    Suspending and resuming the listener and giving the focus back leave
    nothing the engine reads. *)
Definition onScroll : M unit :=
  vc ← get;
  let scrollTop := getScrollTop vc in
  let prevPointer := pointer vc in
  let nextPointer := getCurrentPointer vc in
  modify (set_pointer nextPointer);;
  vc ← get;
  (if widthHasChanged vc then recalculate else mret tt);;
  update ← needUpdate prevPointer nextPointer;
  if negb update then mret tt
  else
    updateContent;;
    vc ← get;
    match mode vc with
    | APPEND_MODE => mret tt
    | REPLACE_MODE => setScrollTop scrollTop
    end.

(** What [renderTo] is given when it is given something: a DOM element or
    a jQuery wrapper of one. *)
Inductive Container := DomElement | JqueryEl.

(** [renderTo(el)]; [None] stands for a falsy argument. *)
Definition renderTo (el : option Container) : M unit :=
  match el with
  | None => mthrow (TypeError "Unsupported element")
  | Some _ =>
      modify (set_parentNode true);;
      vc ← get;
      storeWidth (offsetWidth (dom vc));;
      vc ← get;
      if (0 <? length (chunks vc))%nat then updateContent else mret tt
  end.

(** [getChunkOffsetTopByHeights]: the heights before [chunkIndex] summed. *)
Definition getChunkOffsetTopByHeights (vc : VirtualContent) (chunkIndex : Z) : Exn + Z :=
  if chunkIndex =? 0 then inr 0
  else if Z.of_nat (length (heights vc)) <? chunkIndex then inl (Error "Bad chunk index")
  else
    let hs := slice (heights vc) 0 chunkIndex in
    inr (foldl (fun result value => result + default 0 value) 0 hs).

(** ** Instance tracker

    The static part of the class: the timer of the periodic sweep, the
    [trackInstances] flag and the registry. An instance stands in the
    registry by its identity. *)
Record Tracker := {
  instanceTrackerTimer : bool;
  trackInstances : bool;
  instances : list nat;
}.

Definition startTracking (tr : Tracker) : bool * Tracker :=
  if instanceTrackerTimer tr then (false, tr)
  else (true, {| instanceTrackerTimer := true; trackInstances := true;
                 instances := instances tr |}).

(** [instances.indexOf(this)]. *)
Fixpoint instances_indexOf_from (this : nat) (l : list nat) (i : Z) : Z :=
  match l with
  | [] => -1
  | x :: rest => if (x =? this)%nat then i else instances_indexOf_from this rest (i + 1)
  end.

Definition instances_indexOf (this : nat) (l : list nat) : Z :=
  instances_indexOf_from this l 0.

Definition trackInstance (this : nat) (tr : Tracker) : (Exn + unit) * Tracker :=
  if negb (instances_indexOf this (instances tr) =? -1)
  then (inl (Error "Already tracked"), tr)
  else (inr tt, {| instanceTrackerTimer := instanceTrackerTimer tr;
                   trackInstances := trackInstances tr;
                   instances := instances tr ++ [this] |}).

(** [a.splice(start, 1)]: a negative [start] counts from the end. *)
Definition splice1 {A} (a : list A) (start : Z) : list A :=
  let from := slice_index (length a) start in
  take from a ++ drop (S from) a.

(** What [destroy] does to the registry; the release of the instance's own
    fields is not part of this function. *)
Definition destroy_registry (this : nat) (tr : Tracker) : Tracker :=
  if trackInstances tr then
    let i := instances_indexOf this (instances tr) in
    {| instanceTrackerTimer := instanceTrackerTimer tr;
       trackInstances := trackInstances tr;
       instances := splice1 (instances tr) i |}
  else tr.

(** ** What rendering leaves alone *)

(** Two states of an instance with the same configuration, content,
    pointer, stored width and document. *)
Definition same_setup (vc vc' : VirtualContent) : Prop :=
  chunkLength vc' = chunkLength vc /\ mode vc' = mode vc /\
  threshold vc' = threshold vc /\ contentType vc' = contentType vc /\
  chunks vc' = chunks vc /\ pointer vc' = pointer vc /\
  lastWidth vc' = lastWidth vc /\ dom vc' = dom vc.


(** What a getter reads from a slot after a measurement has been offered
    to it: the measurement if it read 0 before, what it read otherwise. *)
Definition offered (reading measurement : Z) : Z :=
  if reading =? 0 then measurement else reading.

(** * Properties *)

(** ** Scenarios *)

Example split_scenario :
  splitString (str "0123456789ab") 5 = [str "01234"; str "56789"; str "ab"].
Proof. reflexivity. Qed.

Example splitHtml_push_scenario :
  splitHtml (str "ab<div>x</p>yz") 6 = [str "ab"; str "<div>x</p>"; str "yz"].
Proof. reflexivity. Qed.

Example splitHtml_pull_scenario :
  splitHtml (str "x<abcdefghijk>lmnopq") 12 = [str "x<abcdefghijk>"; str "lmnopq"].
Proof. reflexivity. Qed.

(** ** String primitives *)

Section StringLemmas.
Context {A : Type}.
Implicit Types l : list A.

Lemma slice_prefix l k : slice l 0 k = take (slice_index (length l) k) l.
Proof.
  unfold slice.
  replace (slice_index (length l) 0) with 0%nat
    by (unfold slice_index; simpl; lia).
  by rewrite Nat.sub_0_r.
Qed.

Lemma slice_split l k : slice l 0 k ++ slice_from l k = l.
Proof. rewrite slice_prefix. apply take_drop. Qed.

Lemma slice_index_le len k : (slice_index len k <= len)%nat.
Proof. unfold slice_index. destruct (Z.ltb_spec k 0); lia. Qed.

Lemma slice_index_in_range len k :
  0 <= k <= Z.of_nat len -> slice_index len k = Z.to_nat k.
Proof. intros Hk. unfold slice_index. destruct (Z.ltb_spec k 0); lia. Qed.

Lemma length_slice l a b :
  0 <= a <= b -> b <= Z.of_nat (length l) ->
  Z.of_nat (length (slice l a b)) = b - a.
Proof.
  intros Ha Hb. unfold slice.
  rewrite !slice_index_in_range by lia.
  rewrite length_take, length_drop. lia.
Qed.
End StringLemmas.

Lemma substring_chunk (s : JsString) (a c : nat) :
  substring s a (a + c) = take c (drop a s).
Proof.
  unfold substring.
  destruct (Nat.le_gt_cases a (length s)) as [Hle | Hgt].
  - replace ((a `min` length s) `min` ((a + c) `min` length s))%nat with a by lia.
    replace ((a `min` length s) `max` ((a + c) `min` length s) - a)%nat
      with (c `min` length (drop a s))%nat by (rewrite length_drop; lia).
    rewrite <- take_take. by rewrite (take_ge (drop a s) (length (drop a s))).
  - rewrite (drop_ge s a) by lia.
    replace ((a `min` length s) `min` ((a + c) `min` length s))%nat
      with (length s) by lia.
    rewrite drop_ge by lia. by rewrite !take_nil.
Qed.

(** ** Plain splitting *)

Lemma ceil_div_covers (a b : nat) : (0 < b)%nat -> (a <= ceil_div a b * b)%nat.
Proof.
  intros Hb. unfold ceil_div.
  pose proof (Nat.div_mod_eq (a + b - 1) b) as Hdiv.
  pose proof (Nat.mod_upper_bound (a + b - 1) b) as Hmod.
  nia.
Qed.

Lemma ceil_div_zero (b : nat) : (0 < b)%nat -> ceil_div 0 b = 0%nat.
Proof. intros Hb. unfold ceil_div. apply Nat.div_small. lia. Qed.

Lemma length_splitString (s : JsString) (c : nat) :
  length (splitString s c) = ceil_div (length s) c.
Proof. unfold splitString. by rewrite length_fmap, length_seq. Qed.

(** The first [k] chunks make up the first [k * c] code units. *)
Lemma concat_first_chunks (s : JsString) (c k : nat) :
  concat ((fun i : nat =>
             let offset := (i * c)%nat in substring s offset (offset + c))
          <$> seq 0 k) = take (k * c) s.
Proof.
  induction k as [|k IH].
  - reflexivity.
  - rewrite seq_S, fmap_app, concat_app, IH. simpl.
    rewrite app_nil_r, substring_chunk, take_take_drop.
    f_equal. lia.
Qed.

(** C1. For every string and every positive chunk length, the chunks of
    plain splitting, concatenated in order, give the string back. *)
Theorem splitString_concat (s : JsString) (chunkLength : nat) :
  (0 < chunkLength)%nat -> concat (splitString s chunkLength) = s.
Proof.
  intros Hpos. unfold splitString.
  rewrite concat_first_chunks. apply take_ge.
  by apply ceil_div_covers.
Qed.

Lemma splitString_concat_witness :
  (0 < 5)%nat /\
  concat (splitString (str "0123456789ab") 5) = str "0123456789ab".
Proof. split; [lia | apply (splitString_concat (str "0123456789ab") 5); lia]. Defined.

(** ** Markup-aware splitting *)

(** Rewriting two neighbouring slots without changing what they hold
    together leaves the concatenation of the array as it was. *)
Lemma concat_move_between_neighbours (chunks : list JsString) (i : nat)
    (cur next cur' next' : JsString) :
  chunks !! i = Some cur -> chunks !! S i = Some next ->
  cur' ++ next' = cur ++ next ->
  concat (<[i := cur']> (<[S i := next']> chunks)) = concat chunks.
Proof.
  revert i. induction chunks as [|c0 chunks IH]; intros i Hcur Hnext Heq.
  - discriminate.
  - destruct i as [|i]; simpl in *.
    + destruct chunks as [|c1 chunks]; simplify_eq/=.
      by rewrite !app_assoc, Heq.
    + f_equal. by apply IH.
Qed.

Lemma splitHtml_body_length (i : nat) (chunks : list JsString) :
  length (splitHtml_body i chunks) = length chunks.
Proof.
  unfold splitHtml_body.
  repeat (case_match; try done); by rewrite !length_insert.
Qed.

Lemma splitHtml_body_concat (i : nat) (chunks : list JsString) :
  concat (splitHtml_body i chunks) = concat chunks.
Proof.
  unfold splitHtml_body.
  destruct (chunks !! i) as [cur|] eqn:Hcur; [|done].
  destruct (negb _ || _); [done|].
  destruct (chunks !! S i) as [next|] eqn:Hnext; [|done].
  case_match.
  - apply concat_move_between_neighbours with cur next; [done..|].
    rewrite app_assoc. f_equal. apply slice_split.
  - rewrite list_insert_insert_ne by lia.
    apply concat_move_between_neighbours with cur next; [done..|].
    rewrite <- app_assoc. f_equal. apply slice_split.
Qed.

(** A pass at index [i] touches slots [i] and [i + 1] only. *)
Lemma splitHtml_body_elsewhere (i j : nat) (chunks : list JsString) :
  j <> i -> j <> S i -> splitHtml_body i chunks !! j = chunks !! j.
Proof.
  intros Hi HS. unfold splitHtml_body.
  repeat (case_match; try done); by rewrite !list_lookup_insert_ne.
Qed.

(** What a pass at index [i] leaves in slots [i] and [i + 1] is, taken
    together, what was there before. *)
Lemma splitHtml_body_neighbours (i : nat) (chunks : list JsString)
    (cur next : JsString) :
  chunks !! i = Some cur -> chunks !! S i = Some next ->
  exists cur' next',
    splitHtml_body i chunks !! i = Some cur' /\
    splitHtml_body i chunks !! S i = Some next' /\
    cur' ++ next' = cur ++ next.
Proof.
  intros Hcur Hnext.
  pose proof (lookup_lt_Some _ _ _ Hcur) as Hi.
  pose proof (lookup_lt_Some _ _ _ Hnext) as HSi.
  unfold splitHtml_body. rewrite Hcur, Hnext.
  destruct (negb _ || _); [by exists cur, next|].
  case_match.
  - eexists _, _. split; [|split].
    + apply list_lookup_insert_eq. by rewrite length_insert.
    + rewrite list_lookup_insert_ne by lia. by apply list_lookup_insert_eq.
    + rewrite app_assoc. f_equal. apply slice_split.
  - eexists _, _. split; [|split].
    + rewrite list_lookup_insert_ne by lia. by apply list_lookup_insert_eq.
    + apply list_lookup_insert_eq. by rewrite length_insert.
    + rewrite <- app_assoc. f_equal. apply slice_split.
Qed.

Lemma splitHtml_loop_length (fuel i : nat) (chunks : list JsString) :
  length (splitHtml_loop fuel i chunks) = length chunks.
Proof.
  revert i chunks. induction fuel as [|fuel IH]; intros i chunks; simpl; [done|].
  case_match; [|done]. by rewrite IH, splitHtml_body_length.
Qed.

Lemma splitHtml_loop_concat (fuel i : nat) (chunks : list JsString) :
  concat (splitHtml_loop fuel i chunks) = concat chunks.
Proof.
  revert i chunks. induction fuel as [|fuel IH]; intros i chunks; simpl; [done|].
  case_match; [|done]. by rewrite IH, splitHtml_body_concat.
Qed.

(** The fuel [splitHtml] gives its loop is enough: the loop has left
    through its condition, and more fuel changes nothing. *)
Lemma splitHtml_loop_enough (fuel extra i : nat) (chunks : list JsString) :
  (length chunks <= i + fuel)%nat ->
  splitHtml_loop (fuel + extra) i chunks = splitHtml_loop fuel i chunks.
Proof.
  revert i chunks. induction fuel as [|fuel IH]; intros i chunks Hlen; simpl.
  - destruct extra; simpl; [done|].
    destruct (Nat.ltb_spec i (length chunks)); [lia|done].
  - case_match; [|done]. apply IH. rewrite splitHtml_body_length. lia.
Qed.

(** C2. For every string and every positive chunk length, the chunks of
    markup-aware splitting, concatenated in order, give the string back;
    there are as many of them as plain splitting makes, and each repair
    pass keeps the concatenation, the number of chunks, every chunk other
    than the two neighbours it works on, and what these two hold together. *)
Theorem splitHtml_concat (s : JsString) (chunkLength : nat) :
  (0 < chunkLength)%nat ->
  concat (splitHtml s chunkLength) = s /\
  length (splitHtml s chunkLength) = length (splitString s chunkLength) /\
  (forall i chunks,
     concat (splitHtml_body i chunks) = concat chunks /\
     length (splitHtml_body i chunks) = length chunks /\
     (forall j, j <> i -> j <> S i -> splitHtml_body i chunks !! j = chunks !! j) /\
     (forall cur next,
        chunks !! i = Some cur -> chunks !! S i = Some next ->
        exists cur' next',
          splitHtml_body i chunks !! i = Some cur' /\
          splitHtml_body i chunks !! S i = Some next' /\
          cur' ++ next' = cur ++ next)).
Proof.
  intros Hpos. unfold splitHtml. split; [|split].
  - rewrite splitHtml_loop_concat. unfold splitString.
    rewrite concat_first_chunks. apply take_ge. by apply ceil_div_covers.
  - apply splitHtml_loop_length.
  - intros i chunks. split; [apply splitHtml_body_concat|].
    split; [apply splitHtml_body_length|]. split.
    + intros j Hi HS. by apply splitHtml_body_elsewhere.
    + apply splitHtml_body_neighbours.
Qed.

Lemma splitHtml_concat_witness :
  (0 < 6)%nat /\
  concat (splitHtml (str "ab<div>x</p>yz") 6) = str "ab<div>x</p>yz".
Proof.
  split; [lia|].
  apply (proj1 (splitHtml_concat (str "ab<div>x</p>yz") 6 ltac:(lia))).
Defined.

(** C3. The repair measures the next chunk up to its LAST '>', not up to
    the first one where the crossing tag closes. On "ab<div>x</p>yz" cut
    every 6 code units the tag "<div>" has 4 code units in the first chunk
    and 1 in the second, and is nevertheless pushed into the second; on
    "x<abcdefghijk>l<m>nopqrs" cut every 12 the closing fragment "k>" is
    pulled back together with the text and the tag that follow it. *)
Theorem splitHtml_measures_to_last_close :
  (splitString (str "ab<div>x</p>yz") 6 = [str "ab<div"; str ">x</p>"; str "yz"] /\
   splitHtml (str "ab<div>x</p>yz") 6 = [str "ab"; str "<div>x</p>"; str "yz"] /\
   splitHtml_first_close (str "ab<div>x</p>yz") 6
     = [str "ab<div>"; str "x</p>"; str "yz"]) /\
  (splitString (str "x<abcdefghijk>l<m>nopqrs") 12
     = [str "x<abcdefghij"; str "k>l<m>nopqrs"] /\
   splitHtml (str "x<abcdefghijk>l<m>nopqrs") 12
     = [str "x<abcdefghijk>l<m>"; str "nopqrs"] /\
   splitHtml_first_close (str "x<abcdefghijk>l<m>nopqrs") 12
     = [str "x<abcdefghijk>"; str "l<m>nopqrs"]).
Proof. repeat split; reflexivity. Qed.

(** ** Replace-mode window *)

Ltac range_cases :=
  unfold getChunkRangeForReplacement; simpl;
  repeat match goal with
         | |- context [?a <? ?b] => destruct (Z.ltb_spec a b); simpl
         end.

(** C4. In replace mode, for every pointer and positive threshold the range
    starts at 0 or later, ends at the chunk count or earlier, and spans
    min(2t, n) chunks whenever n >= 2t; with 10 chunks and threshold 2,
    pointer 0 gives [0, 4) and pointer 9 gives [6, 10). *)
Theorem getChunkRangeForReplacement_window (vc : VirtualContent) (p : Z) :
  0 < threshold vc ->
  let n := Z.of_nat (length (chunks vc)) in
  let t := threshold vc in
  let r := getChunkRangeForReplacement vc p in
  0 <= r.1 /\ r.2 <= n /\
  (2 * t <= n -> r.2 - r.1 = Z.min (2 * t) n) /\
  (n = 10 -> t = 2 ->
   getChunkRangeForReplacement vc 0 = (0, 4) /\
   getChunkRangeForReplacement vc 9 = (6, 10)).
Proof.
  intros Ht n t r. subst n t r.
  split; [|split; [|split]].
  - range_cases; lia.
  - range_cases; lia.
  - intros Hn. range_cases; lia.
  - intros Hn Hthr. unfold getChunkRangeForReplacement. rewrite Hn, Hthr. done.
Qed.

Lemma getChunkRangeForReplacement_window_witness :
  0 < threshold sample10 /\
  let n := Z.of_nat (length (chunks sample10)) in
  let t := threshold sample10 in
  let r := getChunkRangeForReplacement sample10 9 in
  0 <= r.1 /\ r.2 <= n /\
  (2 * t <= n -> r.2 - r.1 = Z.min (2 * t) n) /\
  (n = 10 -> t = 2 ->
   getChunkRangeForReplacement sample10 0 = (0, 4) /\
   getChunkRangeForReplacement sample10 9 = (6, 10)).
Proof.
  split; [reflexivity|].
  apply (getChunkRangeForReplacement_window sample10 9). reflexivity.
Defined.

Lemma getCurrentPointer_no_offsets (vc : VirtualContent) :
  offsets vc = [] -> getCurrentPointer vc = -1.
Proof. intros H. unfold getCurrentPointer. rewrite H. simpl. by rewrite H. Qed.

(** C10. For every integer pointer (also one outside the chunk indexes,
    such as the -1 the pointer resolver gives on an empty offset cache),
    every positive threshold and every chunk count, the range satisfies
    0 <= start <= end <= n, and [chunks.slice(start, end)] holds exactly the
    end - start chunks of the range. *)
Theorem getChunkRangeForReplacement_in_bounds (vc : VirtualContent) (p : Z) :
  0 < threshold vc ->
  let n := Z.of_nat (length (chunks vc)) in
  let r := getChunkRangeForReplacement vc p in
  0 <= r.1 /\ r.1 <= r.2 /\ r.2 <= n /\
  Z.of_nat (length (slice (chunks vc) r.1 r.2)) = r.2 - r.1 /\
  (offsets vc = [] -> getCurrentPointer vc = -1).
Proof.
  intros Ht n r.
  assert (Hb : 0 <= r.1 /\ r.1 <= r.2 /\ r.2 <= n).
  { subst n r. repeat split; range_cases; lia. }
  destruct Hb as (H0 & Hle & Hn).
  repeat split; try done.
  - apply length_slice; lia.
  - apply getCurrentPointer_no_offsets.
Qed.

Lemma getChunkRangeForReplacement_in_bounds_witness :
  0 < threshold sample10 /\
  let r := getChunkRangeForReplacement sample10 (-1) in
  0 <= r.1 /\ r.1 <= r.2 /\ r.2 <= Z.of_nat (length (chunks sample10)) /\
  Z.of_nat (length (slice (chunks sample10) r.1 r.2)) = r.2 - r.1 /\
  (offsets sample10 = [] -> getCurrentPointer sample10 = -1).
Proof.
  split; [reflexivity|].
  apply (getChunkRangeForReplacement_in_bounds sample10 (-1)). reflexivity.
Defined.

(** ** Needs-update check *)

Ltac run :=
  unfold mbind, M_bind, mret, M_ret, mthrow, M_throw, get, modify; simpl.

(** C9. In replace mode the needs-update check returns normally, leaves the
    instance as it found it, and answers true exactly when the range of the
    previous pointer differs from the range of the next pointer; for equal
    pointers it answers false. *)
Theorem needUpdate_replace (vc : VirtualContent) (prevPointer nextPointer : Z) :
  mode vc = REPLACE_MODE ->
  exists b : bool,
    needUpdate prevPointer nextPointer vc = (inr b, vc) /\
    (b = true <->
     getChunkRangeForReplacement vc prevPointer
       <> getChunkRangeForReplacement vc nextPointer) /\
    (prevPointer = nextPointer -> b = false).
Proof.
  intros Hmode. unfold needUpdate. run. rewrite Hmode.
  destruct (Z.eqb_spec prevPointer nextPointer) as [->|Hne].
  - exists false. split; [done|]. split; [|done].
    split; [done|]. intros H. by destruct H.
  - eexists. split; [reflexivity|]. split; [|done].
    destruct (getChunkRangeForReplacement vc prevPointer) as [a b].
    destruct (getChunkRangeForReplacement vc nextPointer) as [c d].
    unfold range_differs. simpl.
    destruct (Z.eqb_spec a c), (Z.eqb_spec b d); simpl; split;
      intros; try congruence; try done.
Qed.

Lemma needUpdate_replace_witness :
  mode sample10 = REPLACE_MODE /\
  exists b : bool,
    needUpdate 1 5 sample10 = (inr b, sample10) /\
    (b = true <->
     getChunkRangeForReplacement sample10 1 <> getChunkRangeForReplacement sample10 5) /\
    (1 = 5 -> b = false).
Proof.
  split; [reflexivity|].
  apply (needUpdate_replace sample10 1 5). reflexivity.
Defined.

(** ** Pointer resolver *)

Section PointerResolver.
Variable vc : VirtualContent.

Let len := length (offsets vc).
Let scroll := getScrollTopForChunks vc.

(** What the scan started at [i] with enough fuel answers: an index [r]
    from [i - 1] to the last one of the cache, with every offset from [i]
    to [r] at or below the scroll position and, unless [r] is the last
    index, the offset at [r + 1] above it. *)
Lemma getCurrentPointer_loop_spec (fuel i : nat) :
  (i <= len)%nat -> (len <= i + fuel)%nat ->
  let r := getCurrentPointer_loop vc len fuel i in
  Z.of_nat i - 1 <= r <= Z.of_nat len - 1 /\
  (forall j : nat, Z.of_nat i <= Z.of_nat j <= r -> getChunkOffsetTop vc j <= scroll) /\
  (r < Z.of_nat len - 1 -> scroll < getChunkOffsetTop vc (Z.to_nat (r + 1))).
Proof.
  revert i. induction fuel as [|fuel IH]; intros i Hi Hfuel; simpl.
  - fold len. repeat split; lia.
  - destruct (Nat.ltb_spec i len) as [Hlt|Hge].
    + fold scroll. destruct (Z.ltb_spec scroll (getChunkOffsetTop vc i)) as [Hgt|Hle].
      * repeat split; try lia.
        intros _. by replace (Z.to_nat (Z.of_nat i - 1 + 1)) with i by lia.
      * destruct (IH (S i) ltac:(lia) ltac:(lia)) as (Hr & Hbelow & Habove).
        split; [lia|]. split; [|done].
        intros j Hj. destruct (decide (j = i)) as [->|Hne]; [done|].
        apply Hbelow. lia.
    + fold len. repeat split; lia.
Qed.

Lemma getCurrentPointer_spec :
  let r := getCurrentPointer vc in
  -1 <= r <= Z.of_nat len - 1 /\
  (forall j : nat, Z.of_nat j <= r -> getChunkOffsetTop vc j <= scroll) /\
  (r < Z.of_nat len - 1 -> scroll < getChunkOffsetTop vc (Z.to_nat (r + 1))).
Proof.
  destruct (getCurrentPointer_loop_spec len 0 ltac:(lia) ltac:(lia))
    as (Hr & Hbelow & Habove).
  unfold getCurrentPointer. fold len.
  split; [lia|]. split; [|done].
  intros j Hj. apply Hbelow. lia.
Qed.
End PointerResolver.

(** C7, the claim as stated fails: on a cache whose offsets are not in
    order the resolver stops at the first offset above the scroll position
    and misses a later one below it; and past all measured offsets it
    answers the last measured index, not the last chunk index. *)
Lemma getCurrentPointer_not_greatest_for_every_cache :
  ~ greatest_recorded_at_or_below unordered_cache (getCurrentPointer unordered_cache) /\
  ~ resolves_to_last_chunk scrolled_past_measured.
Proof.
  split.
  - intros [_ Hmax]. specialize (Hmax 2%nat 5 eq_refl). vm_compute in Hmax.
    apply Hmax; [discriminate|reflexivity].
  - intros Hlast.
    assert (Hall : forall (j : nat) (o : Z),
               recorded_offset scrolled_past_measured j = Some o ->
               o <= getScrollTopForChunks scrolled_past_measured).
    { assert (Hoffs : offsets scrolled_past_measured
                      = [Some 0; Some 10; Some 20; Some 30]) by (by vm_compute).
      intros j o. unfold recorded_offset, array_get. rewrite Hoffs.
      do 4 (destruct j as [|j]; [intros [= <-]; by vm_compute|]).
      discriminate. }
    specialize (Hlast Hall). vm_compute in Hlast. discriminate.
Qed.

(** C7, amended. On every cache whose offsets as the resolver reads them
    (an absent entry read as 0) do not decrease with the index, the
    resolver returns the greatest index of the offset cache whose offset is
    at most the effective scroll position, and -1 when there is none; when
    no cached offset exceeds the scroll position it returns the last index
    of the offset cache. *)
Theorem getCurrentPointer_greatest (vc : VirtualContent) :
  offsets_non_decreasing vc ->
  let r := getCurrentPointer vc in
  let scroll := getScrollTopForChunks vc in
  -1 <= r <= Z.of_nat (length (offsets vc)) - 1 /\
  (forall j : nat,
     (j < length (offsets vc))%nat ->
     (getChunkOffsetTop vc j <= scroll <-> Z.of_nat j <= r)) /\
  ((forall j : nat, (j < length (offsets vc))%nat -> getChunkOffsetTop vc j <= scroll) ->
   r = Z.of_nat (length (offsets vc)) - 1).
Proof.
  intros Hmono r scroll.
  destruct (getCurrentPointer_spec vc) as (Hr & Hbelow & Habove).
  fold r in Hr, Hbelow, Habove. fold scroll in Hbelow, Habove.
  split; [done|]. split.
  - intros j Hj. split; [|apply Hbelow].
    intros Hle. destruct (Z.le_gt_cases (Z.of_nat j) r) as [|Hgt]; [done|].
    specialize (Habove ltac:(lia)).
    pose proof (Hmono (Z.to_nat (r + 1)) j ltac:(lia)). lia.
  - intros Hall. destruct (Z.le_gt_cases (Z.of_nat (length (offsets vc)) - 1) r); [lia|].
    specialize (Habove ltac:(lia)).
    pose proof (Hall (Z.to_nat (r + 1)) ltac:(lia)). lia.
Qed.

Lemma getCurrentPointer_greatest_witness :
  offsets_non_decreasing scrolled_within_measured /\
  let r := getCurrentPointer scrolled_within_measured in
  let scroll := getScrollTopForChunks scrolled_within_measured in
  -1 <= r <= Z.of_nat (length (offsets scrolled_within_measured)) - 1 /\
  (forall j : nat,
     (j < length (offsets scrolled_within_measured))%nat ->
     (getChunkOffsetTop scrolled_within_measured j <= scroll <-> Z.of_nat j <= r)) /\
  ((forall j : nat,
      (j < length (offsets scrolled_within_measured))%nat ->
      getChunkOffsetTop scrolled_within_measured j <= scroll) ->
   r = Z.of_nat (length (offsets scrolled_within_measured)) - 1).
Proof.
  assert (Hmono : offsets_non_decreasing scrolled_within_measured).
  { intros i j [Hij Hj].
    change (length (offsets scrolled_within_measured)) with 4%nat in Hj.
    do 4 (destruct j as [|j];
          [do 4 (destruct i as [|i]; [first [lia | by vm_compute]|]); lia|]).
    lia. }
  split; [exact Hmono|].
  apply (getCurrentPointer_greatest scrolled_within_measured Hmono).
Defined.

(** ** Geometry cache *)

Lemma array_get_set_eq {A} (a : list (option A)) (i : nat) (v : A) :
  array_get (array_set a i v) i = Some v.
Proof.
  unfold array_get, array_set.
  destruct (Nat.ltb_spec i (length a)) as [Hlt|Hge].
  - by rewrite list_lookup_insert_eq.
  - rewrite lookup_app_r by lia.
    rewrite lookup_app_r by (rewrite length_replicate; lia).
    rewrite length_replicate.
    by replace (i - length a - (i - length a))%nat with 0%nat by lia.
Qed.

Lemma storeChunkData_returns (i : nat) (extras : Extras) (vc : VirtualContent) :
  (storeChunkData i extras vc).1 = inr tt.
Proof.
  unfold storeChunkData. run.
  destruct (offsetTop extras), (offsetHeight extras), (leftPad extras); simpl;
    repeat (case_match; simplify_eq/=); done.
Qed.

Lemma storeChunkData_offsets (i : nat) (extras : Extras) (vc : VirtualContent) :
  offsets (storeChunkData i extras vc).2 =
  match offsetTop extras with
  | Some v =>
      if falsy_number (array_get (offsets vc) i)
      then array_set (offsets vc) i v else offsets vc
  | None => offsets vc
  end.
Proof.
  unfold storeChunkData. run.
  destruct (offsetTop extras), (offsetHeight extras), (leftPad extras); simpl;
    repeat (case_match; simplify_eq/=); done.
Qed.

Lemma storeChunkData_heights (i : nat) (extras : Extras) (vc : VirtualContent) :
  heights (storeChunkData i extras vc).2 =
  match offsetHeight extras with
  | Some v =>
      if falsy_number (array_get (heights vc) i)
      then array_set (heights vc) i v else heights vc
  | None => heights vc
  end.
Proof.
  unfold storeChunkData. run.
  destruct (offsetTop extras), (offsetHeight extras), (leftPad extras); simpl;
    repeat (case_match; simplify_eq/=); done.
Qed.

Lemma storeChunkData_leftPads (i : nat) (extras : Extras) (vc : VirtualContent) :
  leftPads (storeChunkData i extras vc).2 =
  match leftPad extras with
  | Some v =>
      if falsy_number (array_get (leftPads vc) i)
      then array_set (leftPads vc) i v else leftPads vc
  | None => leftPads vc
  end.
Proof.
  unfold storeChunkData. run.
  destruct (offsetTop extras), (offsetHeight extras), (leftPad extras); simpl;
    repeat (case_match; simplify_eq/=); done.
Qed.

(** Recording a measurement that is not 0 leaves a slot that is not falsy. *)
Lemma recorded_nonzero_is_truthy (a : list (option Z)) (i : nat) (v : Z) :
  v <> 0 ->
  falsy_number
    (array_get (if falsy_number (array_get a i) then array_set a i v else a) i) = false.
Proof.
  intros Hv. destruct (falsy_number (array_get a i)) eqn:Hslot; [|done].
  rewrite array_get_set_eq. simpl. by apply Z.eqb_neq.
Qed.

(** C6, the claim as stated fails: a recorded 0 (the offset of a chunk at
    the very top, an empty chunk's height, no indent) is overwritten by the
    next measurement of the same index. *)
Lemma storeChunkData_overwrites_zero :
  let vc1 := (storeChunkData 0 measured_at_top sample).2 in
  let vc2 := (storeChunkData 0 measured_lower vc1).2 in
  (offsets vc1 = [Some 0] /\ heights vc1 = [Some 0] /\ leftPads vc1 = [Some 0]) /\
  (offsets vc2 = [Some 5] /\ heights vc2 = [Some 12] /\ leftPads vc2 = [Some 3]).
Proof. repeat split; reflexivity. Qed.

(** C6, amended. The geometry cache is write-once per field per index for
    measurements other than 0: once a measurement other than 0 has been
    recorded for an index in one of the fields height, offsetFromTop and
    leftIndent, recording a second measurement for that index returns
    normally and leaves the whole array of that field unchanged. *)
Theorem storeChunkData_write_once (vc : VirtualContent) (i : nat)
    (first second : Extras) :
  let vc1 := (storeChunkData i first vc).2 in
  let vc2 := (storeChunkData i second vc1).2 in
  storeChunkData i second vc1 = (inr tt, vc2) /\
  (forall v, offsetTop first = Some v -> v <> 0 -> offsets vc2 = offsets vc1) /\
  (forall v, offsetHeight first = Some v -> v <> 0 -> heights vc2 = heights vc1) /\
  (forall v, leftPad first = Some v -> v <> 0 -> leftPads vc2 = leftPads vc1).
Proof.
  intros vc1 vc2. split; [|split; [|split]].
  - subst vc2. pose proof (storeChunkData_returns i second vc1) as Hret.
    destruct (storeChunkData i second vc1) as [res st]. simpl in *. by subst.
  - intros v Hfirst Hv. subst vc2.
    rewrite storeChunkData_offsets. destruct (offsetTop second); [|done].
    subst vc1. rewrite storeChunkData_offsets, Hfirst.
    by rewrite recorded_nonzero_is_truthy.
  - intros v Hfirst Hv. subst vc2.
    rewrite storeChunkData_heights. destruct (offsetHeight second); [|done].
    subst vc1. rewrite storeChunkData_heights, Hfirst.
    by rewrite recorded_nonzero_is_truthy.
  - intros v Hfirst Hv. subst vc2.
    rewrite storeChunkData_leftPads. destruct (leftPad second); [|done].
    subst vc1. rewrite storeChunkData_leftPads, Hfirst.
    by rewrite recorded_nonzero_is_truthy.
Qed.

Lemma storeChunkData_write_once_witness :
  let vc1 := (storeChunkData 0 measured_lower sample).2 in
  let vc2 := (storeChunkData 0 measured_at_top vc1).2 in
  storeChunkData 0 measured_at_top vc1 = (inr tt, vc2) /\
  (forall v, offsetTop measured_lower = Some v -> v <> 0 -> offsets vc2 = offsets vc1) /\
  (forall v, offsetHeight measured_lower = Some v -> v <> 0 -> heights vc2 = heights vc1) /\
  (forall v, leftPad measured_lower = Some v -> v <> 0 -> leftPads vc2 = leftPads vc1).
Proof. apply (storeChunkData_write_once sample 0 measured_lower measured_at_top). Defined.

(** ** Rendering never throws and never touches the chunks *)

Lemma storeChunkData_chunks (i : nat) (extras : Extras) (vc : VirtualContent) :
  chunks (storeChunkData i extras vc).2 = chunks vc.
Proof.
  unfold storeChunkData. run.
  destruct (offsetTop extras), (offsetHeight extras), (leftPad extras); simpl;
    repeat (case_match; simplify_eq/=); done.
Qed.

Lemma updateContentWithReplace_chunk_ok (startOffset : Z) (i : nat) (vc : VirtualContent) :
  exists vc', updateContentWithReplace_chunk startOffset i vc = (inr tt, vc') /\
              chunks vc' = chunks vc.
Proof.
  unfold updateContentWithReplace_chunk. run.
  pose proof (storeChunkData_returns (Z.to_nat (startOffset + Z.of_nat i))
                (extras_of (calculateChunkData vc (Z.to_nat (startOffset + Z.of_nat i))))
                vc) as Hret.
  pose proof (storeChunkData_chunks (Z.to_nat (startOffset + Z.of_nat i))
                (extras_of (calculateChunkData vc (Z.to_nat (startOffset + Z.of_nat i))))
                vc) as Hch.
  destruct (storeChunkData _ _ vc) as [res st]. simpl in *. subst res.
  eexists. split; [reflexivity|]. done.
Qed.

Lemma for_each_ok (f : nat -> M unit) (idxs : list nat) :
  (forall i vc, exists vc', f i vc = (inr tt, vc') /\ chunks vc' = chunks vc) ->
  forall vc, exists vc', for_each f idxs vc = (inr tt, vc') /\ chunks vc' = chunks vc.
Proof.
  intros Hf. induction idxs as [|i idxs IH]; intros vc; simpl.
  - by exists vc.
  - run. destruct (Hf i vc) as (vc1 & -> & Hch1).
    destruct (IH vc1) as (vc2 & -> & Hch2).
    exists vc2. split; [done|congruence].
Qed.

Lemma updateContentWithAppend_loop_ok (last : Z) (fuel i : nat) (vc : VirtualContent) :
  exists vc', updateContentWithAppend_loop last fuel i vc = (inr tt, vc') /\
              chunks vc' = chunks vc.
Proof.
  revert i vc. induction fuel as [|fuel IH]; intros i vc; simpl.
  - by exists vc.
  - destruct (Z.of_nat i <? last); [|by exists vc].
    run. match goal with |- context [updateContentWithAppend_loop last fuel (S i) ?st] =>
           destruct (IH (S i) st) as (vc' & -> & Hch) end.
    by exists vc'.
Qed.

Lemma updateContent_ok (vc : VirtualContent) :
  exists vc', updateContent vc = (inr tt, vc') /\ chunks vc' = chunks vc.
Proof.
  unfold updateContent. run. destruct (mode vc).
  - unfold updateContentWithReplace. run.
    destruct (getChunkRangeForReplacement vc 0) as [startOffset endOffset]. simpl.
    match goal with |- context [for_each ?f ?l ?st] =>
      destruct (for_each_ok f l (updateContentWithReplace_chunk_ok startOffset) st)
        as (vc' & -> & Hch) end.
    by exists vc'.
  - unfold updateContentWithAppend. run.
    match goal with |- context [updateContentWithAppend_loop ?l ?f ?i ?st] =>
      destruct (updateContentWithAppend_loop_ok l f i st) as (vc' & -> & Hch) end.
    by exists vc'.
Qed.

(** ** Setting content *)

Lemma setText_run (v : JsValue) (vc : VirtualContent) :
  setText v vc =
  match validateString v with
  | inl e => (inl e, vc)
  | inr s =>
      let st := content_replaced TEXT_TYPE (splitString s (chunkLength vc)) vc in
      if parentNode (dom vc) then updateContent st else (inr tt, st)
  end.
Proof.
  unfold setText, lift, content_replaced. run.
  destruct (parentNode (dom vc));
    destruct v as [| |b|n|s|z| |]; simpl; try done;
    repeat case_match; done.
Qed.

Lemma setHtml_run (v : JsValue) (vc : VirtualContent) :
  setHtml v vc =
  match validateString v with
  | inl e => (inl e, vc)
  | inr s =>
      let st := content_replaced HTML_TYPE (splitHtml s (chunkLength vc)) vc in
      if parentNode (dom vc) then updateContent st else (inr tt, st)
  end.
Proof.
  unfold setHtml, lift, content_replaced. run.
  destruct (parentNode (dom vc)); destruct (validateString v); done.
Qed.

Lemma validateString_rejected (v : JsValue) :
  rejected v = true -> validateString v = inl (TypeError "Not a string").
Proof.
  unfold rejected.
  destruct v as [| |b|n|s|z| |]; simpl; try done.
  - by destruct b.
  - by destruct n.
  - by destruct (z =? 0).
Qed.

Lemma validateString_accepted (v : JsValue) :
  rejected v = false ->
  exists s, validateString v = inr s /\
    (forall x, v = VString x -> s = x) /\
    (forall n, v = VNumber n -> isNaN n = false -> s = NumberToString n) /\
    (is_string v = false -> is_number_other_than_NaN v = false -> s = []).
Proof.
  unfold rejected.
  destruct v as [| |b|n|s|z| |]; simpl; try done.
  - intros _. exists []. repeat split; done.
  - intros _. exists []. repeat split; done.
  - destruct b; [done|]. intros _. exists []. repeat split; done.
  - intros _. destruct n as [|neg|r]; simpl.
    + exists []. repeat split; try done. by intros n [= <-].
    + eexists. split; [reflexivity|]. repeat split; try done. by intros n [= <-].
    + eexists. split; [reflexivity|]. repeat split; try done. by intros n [= <-].
  - intros _. exists s. repeat split; try done. by intros x [= <-].
  - destruct (z =? 0); [|done]. intros _. exists []. repeat split; done.
Qed.

(** C8, the claim as stated fails: Infinity is neither a string nor a
    finite number (nor falsy), and it is accepted and rendered as the text
    "Infinity". *)
Lemma validateString_accepts_Infinity :
  is_string (VNumber (Infinity false)) = false /\
  is_finite_number (VNumber (Infinity false)) = false /\
  truthy (VNumber (Infinity false)) = true /\
  validateString (VNumber (Infinity false)) = inr (str "Infinity") /\
  (setText (VNumber (Infinity false)) sample).1 = inr tt /\
  chunks (setText (VNumber (Infinity false)) sample).2 = [str "Infin"; str "ity"].
Proof. repeat split; reflexivity. Qed.

(** C8, amended. [setText] and [setHtml] throw a TypeError exactly when the
    argument is not a string, not a number other than NaN, and truthy; the
    instance is then left as it was. Otherwise they return normally with
    the chunks of the validated text: a string as it is, a number other
    than NaN (the infinities too) as its rendering, and null, undefined,
    NaN and the other falsy values as the empty string. *)
Theorem setText_validation (v : JsValue) (vc : VirtualContent) :
  (rejected v = true ->
   validateString v = inl (TypeError "Not a string") /\
   setText v vc = (inl (TypeError "Not a string"), vc) /\
   setHtml v vc = (inl (TypeError "Not a string"), vc)) /\
  (rejected v = false ->
   exists s,
     validateString v = inr s /\
     (exists vc', setText v vc = (inr tt, vc') /\
                  chunks vc' = splitString s (chunkLength vc)) /\
     (exists vc', setHtml v vc = (inr tt, vc') /\
                  chunks vc' = splitHtml s (chunkLength vc)) /\
     (forall x, v = VString x -> s = x) /\
     (forall n, v = VNumber n -> isNaN n = false -> s = NumberToString n) /\
     (is_string v = false -> is_number_other_than_NaN v = false -> s = [])).
Proof.
  split.
  - intros Hrej. pose proof (validateString_rejected v Hrej) as Hval.
    by rewrite setText_run, setHtml_run, Hval.
  - intros Hacc.
    destruct (validateString_accepted v Hacc) as (s & Hval & Hstr & Hnum & Hfalsy).
    exists s. rewrite setText_run, setHtml_run, Hval. cbv zeta.
    split; [done|]. split; [|split; [|done]].
    + destruct (parentNode (dom vc)).
      * destruct (updateContent_ok
                    (content_replaced TEXT_TYPE (splitString s (chunkLength vc)) vc))
          as (vc' & -> & Hch).
        by exists vc'.
      * by eexists.
    + destruct (parentNode (dom vc)).
      * destruct (updateContent_ok
                    (content_replaced HTML_TYPE (splitHtml s (chunkLength vc)) vc))
          as (vc' & -> & Hch).
        by exists vc'.
      * by eexists.
Qed.

Lemma setText_validation_witness :
  rejected VObject = true /\
  rejected (VNumber (Finite (str "42"))) = false /\
  setText VObject sample10 = (inl (TypeError "Not a string"), sample10) /\
  exists s, validateString (VNumber (Finite (str "42"))) = inr s.
Proof.
  split; [reflexivity|]. split; [reflexivity|]. split.
  - apply (proj1 (setText_validation VObject sample10) eq_refl).
  - destruct (proj2 (setText_validation (VNumber (Finite (str "42"))) sample10) eq_refl)
      as (s & Hval & _).
    exists s. exact Hval.
Defined.

(** ** Empty content *)

Lemma slice_nil {A} (a b : Z) : slice (@nil A) a b = [].
Proof. unfold slice. by rewrite drop_nil, take_nil. Qed.

Lemma updateContentWithAppend_loop_done (last : Z) (fuel i : nat) (vc : VirtualContent) :
  last <= Z.of_nat i -> updateContentWithAppend_loop last fuel i vc = (inr tt, vc).
Proof.
  intros Hlast. destruct fuel; simpl; [done|].
  destruct (Z.ltb_spec (Z.of_nat i) last); [lia|done].
Qed.

Lemma updateContent_no_chunks (ty : ContentType) (vc : VirtualContent) :
  updateContent (content_replaced ty [] vc) = (inr tt, content_replaced ty [] vc).
Proof.
  unfold updateContent. run. destruct (mode vc).
  - unfold updateContentWithReplace. run.
    destruct (getChunkRangeForReplacement _ 0) as [startOffset endOffset]. simpl.
    rewrite slice_nil. vm_compute. reflexivity.
  - unfold updateContentWithAppend. run.
    apply updateContentWithAppend_loop_done. simpl. lia.
Qed.

(** C5, the claim as stated fails: empty content is split into no chunk at
    all, and after [setText("")] the content sequence is empty. *)
Lemma splitString_empty_is_not_one_chunk :
  length (splitString (str "") 5) <> 1%nat /\
  chunks (setText (VString (str "")) sample).2 <> [str ""].
Proof. split; discriminate. Qed.

(** C5, amended. Splitting empty content yields no chunk: for every
    positive chunk length the split of the empty string is the empty
    sequence, and [setText("")] (as [setText()] and [setHtml("")]) returns
    normally with an empty content sequence, an empty geometry cache and
    nothing visible. *)
Theorem setText_empty_no_chunk (vc : VirtualContent) :
  (0 < chunkLength vc)%nat ->
  splitString [] (chunkLength vc) = [] /\
  splitHtml [] (chunkLength vc) = [] /\
  setText (VString []) vc = (inr tt, content_replaced TEXT_TYPE [] vc) /\
  setText VUndefined vc = (inr tt, content_replaced TEXT_TYPE [] vc) /\
  setHtml (VString []) vc = (inr tt, content_replaced HTML_TYPE [] vc) /\
  chunks (content_replaced TEXT_TYPE [] vc) = [] /\
  offsets (content_replaced TEXT_TYPE [] vc) = [] /\
  heights (content_replaced TEXT_TYPE [] vc) = [] /\
  visibleIndexes (content_replaced TEXT_TYPE [] vc) = [].
Proof.
  intros Hpos.
  assert (Hsplit : splitString [] (chunkLength vc) = []).
  { unfold splitString. simpl. by rewrite ceil_div_zero. }
  assert (Hhtml : splitHtml [] (chunkLength vc) = []).
  { unfold splitHtml. by rewrite Hsplit. }
  split; [done|]. split; [done|].
  rewrite !setText_run, setHtml_run. simpl. rewrite Hsplit, Hhtml.
  repeat split; try done;
    (destruct (parentNode (dom vc)); [apply updateContent_no_chunks|done]).
Qed.

Lemma setText_empty_no_chunk_witness :
  (0 < chunkLength sample10)%nat /\
  splitString [] (chunkLength sample10) = [] /\
  setText (VString []) sample10 = (inr tt, content_replaced TEXT_TYPE [] sample10).
Proof.
  split; [vm_compute; lia|].
  pose proof (setText_empty_no_chunk sample10 ltac:(vm_compute; lia)) as H.
  destruct H as (H1 & _ & H3 & _).
  split; [exact H1|exact H3].
Defined.

(** * Further properties of the engine *)

(** ** Shape of the plain chunks *)

Lemma ceil_div_index (a b i : nat) :
  (0 < b)%nat -> (i < ceil_div a b)%nat -> (i * b < a)%nat.
Proof.
  intros Hb Hi. unfold ceil_div in Hi.
  pose proof (Nat.div_mod_eq (a + b - 1) b) as Hdiv.
  pose proof (Nat.mod_upper_bound (a + b - 1) b) as Hmod.
  nia.
Qed.

Lemma splitString_lookup (s : JsString) (c i : nat) (chunk : JsString) :
  splitString s c !! i = Some chunk ->
  chunk = take c (drop (i * c) s) /\ (i < ceil_div (length s) c)%nat.
Proof.
  unfold splitString. rewrite list_lookup_fmap.
  destruct (seq 0 (ceil_div (length s) c) !! i) as [k|] eqn:Hk; [|done].
  apply lookup_seq in Hk as [-> Hi]. simpl. intros [= <-].
  by rewrite substring_chunk.
Qed.

(** X1. With a positive chunk length, chunk [i] of plain splitting is the
    [chunkLength] code units of the string from position
    [i * chunkLength]; no chunk is empty, none is longer than
    [chunkLength], and every chunk but the last has exactly that length. *)
Theorem splitString_chunk_sizes (s : JsString) (chunkLength i : nat) (chunk : JsString) :
  (0 < chunkLength)%nat ->
  splitString s chunkLength !! i = Some chunk ->
  chunk = take chunkLength (drop (i * chunkLength) s) /\
  (0 < length chunk <= chunkLength)%nat /\
  ((S i < length (splitString s chunkLength))%nat -> length chunk = chunkLength).
Proof.
  intros Hpos Hlook.
  destruct (splitString_lookup s chunkLength i chunk Hlook) as [-> Hi].
  pose proof (ceil_div_index _ _ _ Hpos Hi) as Hlt.
  split; [done|]. rewrite length_take, length_drop. split; [lia|].
  rewrite length_splitString. intros HS.
  pose proof (ceil_div_index _ _ _ Hpos HS). lia.
Qed.

Lemma splitString_chunk_sizes_witness :
  (0 < 5)%nat /\
  splitString (str "0123456789ab") 5 !! 2%nat = Some (str "ab") /\
  str "ab" = take 5 (drop (2 * 5) (str "0123456789ab")) /\
  (0 < length (str "ab") <= 5)%nat /\
  ((3 < length (splitString (str "0123456789ab") 5))%nat -> length (str "ab") = 5%nat).
Proof.
  split; [lia|]. split; [reflexivity|].
  apply (splitString_chunk_sizes (str "0123456789ab") 5 2 (str "ab")); [lia|reflexivity].
Defined.

(** ** Markup-aware splitting of text without tags *)

Lemma lastIndexOf_from_absent (c : code_unit) (s : JsString) (i found : Z) :
  c ∉ s -> lastIndexOf_from c s i found = found.
Proof.
  revert i found. induction s as [|x s IH]; intros i found Hc; simpl; [done|].
  apply not_elem_of_cons in Hc as [Hne Hc].
  rewrite IH by done. destruct (N.eqb_spec x c); congruence.
Qed.

Lemma lastIndexOf_from_lower (c : code_unit) (s : JsString) (i found : Z) :
  Z.min found i <= lastIndexOf_from c s i found.
Proof.
  revert i found. induction s as [|x s IH]; intros i found; simpl; [lia|].
  specialize (IH (i + 1) (if N.eqb x c then i else found)).
  destruct (N.eqb x c); lia.
Qed.

Lemma splitHtml_body_no_open (i : nat) (chunks : list JsString) :
  Forall (fun chunk => LT ∉ chunk) chunks -> splitHtml_body i chunks = chunks.
Proof.
  intros Hall. unfold splitHtml_body.
  destruct (chunks !! i) as [cur|] eqn:Hcur; [|done].
  assert (Hopen : lastIndexOf LT cur = -1).
  { apply lastIndexOf_from_absent.
    eapply (proj1 (Forall_lookup _ _) Hall); eauto. }
  rewrite Hopen.
  pose proof (lastIndexOf_from_lower GT cur 0 (-1)) as Hclose.
  fold (lastIndexOf GT cur) in Hclose.
  destruct (Z.ltb_spec (lastIndexOf GT cur) (-1)); [lia|done].
Qed.

Lemma splitHtml_loop_no_open (fuel i : nat) (chunks : list JsString) :
  Forall (fun chunk => LT ∉ chunk) chunks -> splitHtml_loop fuel i chunks = chunks.
Proof.
  intros Hall. revert i. induction fuel as [|fuel IH]; intros i; simpl; [done|].
  case_match; [|done]. by rewrite splitHtml_body_no_open, IH.
Qed.

(** X2. On a string without any '<' markup-aware splitting changes
    nothing: it gives the chunks of plain splitting. *)
Theorem splitHtml_plain_text (s : JsString) (chunkLength : nat) :
  LT ∉ s -> splitHtml s chunkLength = splitString s chunkLength.
Proof.
  intros Hs. unfold splitHtml. apply splitHtml_loop_no_open.
  apply Forall_lookup. intros i chunk Hlook Hin.
  apply splitString_lookup in Hlook as [-> _].
  apply Hs. by eapply subseteq_drop, subseteq_take.
Qed.

Lemma splitHtml_plain_text_witness :
  (LT ∉ str "a > b and c") /\
  splitHtml (str "a > b and c") 4 = splitString (str "a > b and c") 4.
Proof.
  assert (H : LT ∉ str "a > b and c").
  { intros Hin. apply list_elem_of_In in Hin. vm_compute in Hin.
    repeat (destruct Hin as [Hin|Hin]; [discriminate|]). exact Hin. }
  split; [exact H|]. apply (splitHtml_plain_text (str "a > b and c") 4 H).
Defined.

(** ** Shape of the replace-mode window *)

(** X3. With a positive threshold the window of a pointer that is a chunk
    index contains that chunk. *)
Theorem getChunkRangeForReplacement_contains_pointer (vc : VirtualContent) (p : Z) :
  0 < threshold vc ->
  0 <= p < Z.of_nat (length (chunks vc)) ->
  (getChunkRangeForReplacement vc p).1 <= p < (getChunkRangeForReplacement vc p).2.
Proof. intros Ht Hp. range_cases; lia. Qed.

Lemma getChunkRangeForReplacement_contains_pointer_witness :
  0 < threshold sample10 /\
  0 <= 9 < Z.of_nat (length (chunks sample10)) /\
  (getChunkRangeForReplacement sample10 9).1 <= 9
    < (getChunkRangeForReplacement sample10 9).2.
Proof.
  split; [reflexivity|]. split; [split; [discriminate|reflexivity]|].
  apply (getChunkRangeForReplacement_contains_pointer sample10 9);
    [reflexivity|split; [discriminate|reflexivity]].
Defined.

(** X4. The three regimes of the window, for a positive threshold t and n
    chunks: with n <= 2t it is all the chunks whatever the pointer; with
    n >= 2t it is [p - t, p + t) for a pointer at least t from both ends,
    [0, 2t) for a pointer below t and [n - 2t, n) for one above n - t. *)
Theorem getChunkRangeForReplacement_regimes (vc : VirtualContent) (p : Z) :
  0 < threshold vc ->
  let n := Z.of_nat (length (chunks vc)) in
  let t := threshold vc in
  (n <= 2 * t -> getChunkRangeForReplacement vc p = (0, n)) /\
  (2 * t <= n -> t <= p <= n - t -> getChunkRangeForReplacement vc p = (p - t, p + t)) /\
  (2 * t <= n -> p <= t -> getChunkRangeForReplacement vc p = (0, 2 * t)) /\
  (2 * t <= n -> n - t <= p -> getChunkRangeForReplacement vc p = (n - 2 * t, n)).
Proof.
  intros Ht n t. subst n t.
  repeat split; intros; range_cases; f_equal; lia.
Qed.

Lemma getChunkRangeForReplacement_regimes_witness :
  0 < threshold sample10 /\
  let n := Z.of_nat (length (chunks sample10)) in
  let t := threshold sample10 in
  (n <= 2 * t -> getChunkRangeForReplacement sample10 5 = (0, n)) /\
  (2 * t <= n -> t <= 5 <= n - t ->
   getChunkRangeForReplacement sample10 5 = (5 - t, 5 + t)) /\
  (2 * t <= n -> 5 <= t -> getChunkRangeForReplacement sample10 5 = (0, 2 * t)) /\
  (2 * t <= n -> n - t <= 5 -> getChunkRangeForReplacement sample10 5 = (n - 2 * t, n)).
Proof.
  split; [reflexivity|].
  apply (getChunkRangeForReplacement_regimes sample10 5). reflexivity.
Defined.

(** X5. The window never moves backwards when the pointer moves forwards:
    both its bounds are non-decreasing in the pointer. *)
Theorem getChunkRangeForReplacement_monotone (vc : VirtualContent) (p q : Z) :
  0 < threshold vc ->
  p <= q ->
  (getChunkRangeForReplacement vc p).1 <= (getChunkRangeForReplacement vc q).1 /\
  (getChunkRangeForReplacement vc p).2 <= (getChunkRangeForReplacement vc q).2.
Proof. intros Ht Hpq. split; range_cases; lia. Qed.

Lemma getChunkRangeForReplacement_monotone_witness :
  0 < threshold sample10 /\ 3 <= 8 /\
  (getChunkRangeForReplacement sample10 3).1 <= (getChunkRangeForReplacement sample10 8).1 /\
  (getChunkRangeForReplacement sample10 3).2 <= (getChunkRangeForReplacement sample10 8).2.
Proof.
  split; [reflexivity|]. split; [discriminate|].
  apply (getChunkRangeForReplacement_monotone sample10 3 8); [reflexivity|discriminate].
Defined.

(** ** Needs-update check, further cases *)

Lemma needUpdate_replace_run (vc : VirtualContent) (prevPointer nextPointer : Z) :
  mode vc = REPLACE_MODE ->
  needUpdate prevPointer nextPointer vc =
  (inr (if prevPointer =? nextPointer then false
        else range_differs (getChunkRangeForReplacement vc prevPointer)
                           (getChunkRangeForReplacement vc nextPointer)), vc).
Proof.
  intros Hmode. unfold needUpdate. run. rewrite Hmode.
  by destruct (prevPointer =? nextPointer).
Qed.

(** X6. In replace mode, with a positive threshold t and at least 2t
    chunks: no rebuild is asked for while the pointer moves among the
    first t + 1 chunk indexes, nor among the indexes from n - t on; and a
    rebuild is asked for whenever the pointer changes between two indexes
    that are at least t from both ends. *)
Theorem needUpdate_replace_zones (vc : VirtualContent) (p q : Z) :
  mode vc = REPLACE_MODE ->
  0 < threshold vc ->
  2 * threshold vc <= Z.of_nat (length (chunks vc)) ->
  let n := Z.of_nat (length (chunks vc)) in
  let t := threshold vc in
  (p <= t -> q <= t -> needUpdate p q vc = (inr false, vc)) /\
  (n - t <= p -> n - t <= q -> needUpdate p q vc = (inr false, vc)) /\
  (t <= p <= n - t -> t <= q <= n - t -> p <> q -> needUpdate p q vc = (inr true, vc)).
Proof.
  intros Hmode Ht Hn n t. subst n t.
  rewrite needUpdate_replace_run by done.
  assert (Hsame : forall a b : Z * Z, a = b -> range_differs a b = false).
  { intros [a1 a2] b <-. unfold range_differs. simpl. by rewrite !Z.eqb_refl. }
  repeat split.
  - intros Hp Hq. destruct (p =? q); [done|]. do 2 f_equal. apply Hsame.
    range_cases; f_equal; lia.
  - intros Hp Hq. destruct (p =? q); [done|]. do 2 f_equal. apply Hsame.
    range_cases; f_equal; lia.
  - intros Hp Hq Hne. destruct (Z.eqb_spec p q); [done|]. do 2 f_equal.
    unfold range_differs.
    assert (Hfst : (getChunkRangeForReplacement vc p).1 <> (getChunkRangeForReplacement vc q).1)
      by (range_cases; lia).
    apply Z.eqb_neq in Hfst. by rewrite Hfst.
Qed.

Lemma needUpdate_replace_zones_witness :
  mode sample10 = REPLACE_MODE /\
  0 < threshold sample10 /\
  2 * threshold sample10 <= Z.of_nat (length (chunks sample10)) /\
  let n := Z.of_nat (length (chunks sample10)) in
  let t := threshold sample10 in
  (0 <= t -> 2 <= t -> needUpdate 0 2 sample10 = (inr false, sample10)) /\
  (n - t <= 0 -> n - t <= 2 -> needUpdate 0 2 sample10 = (inr false, sample10)) /\
  (t <= 0 <= n - t -> t <= 2 <= n - t -> 0 <> 2 ->
   needUpdate 0 2 sample10 = (inr true, sample10)).
Proof.
  split; [reflexivity|]. split; [reflexivity|]. split; [discriminate|].
  apply (needUpdate_replace_zones sample10 0 2); [reflexivity|reflexivity|discriminate].
Defined.





(** ** Pointer resolver and scroll position *)

Lemma getCurrentPointer_loop_monotone (vc vc' : VirtualContent) (fuel i : nat) :
  offsets vc' = offsets vc ->
  getScrollTopForChunks vc <= getScrollTopForChunks vc' ->
  (i <= length (offsets vc))%nat -> (length (offsets vc) <= i + fuel)%nat ->
  getCurrentPointer_loop vc (length (offsets vc)) fuel i
  <= getCurrentPointer_loop vc' (length (offsets vc)) fuel i.
Proof.
  intros Hoff Hscroll.
  revert i. induction fuel as [|fuel IH]; intros i Hi Hfuel; simpl.
  - rewrite Hoff. lia.
  - assert (Hread : getChunkOffsetTop vc' i = getChunkOffsetTop vc i)
      by (unfold getChunkOffsetTop; by rewrite Hoff).
    rewrite Hread, Hoff.
    destruct (Nat.ltb_spec i (length (offsets vc))) as [Hlt|Hge]; [|lia].
    destruct (Z.ltb_spec (getScrollTopForChunks vc) (getChunkOffsetTop vc i)) as [Habove|Hbelow].
    + destruct (Z.ltb_spec (getScrollTopForChunks vc') (getChunkOffsetTop vc i)); [lia|].
      pose proof (getCurrentPointer_loop_spec vc' fuel (S i)) as Hspec.
      rewrite Hoff in Hspec. destruct (Hspec ltac:(lia) ltac:(lia)) as [Hr _]. lia.
    + destruct (Z.ltb_spec (getScrollTopForChunks vc') (getChunkOffsetTop vc i)); [lia|].
      apply IH; lia.
Qed.

(** X8. On one and the same offset cache, whatever its order, a greater
    effective scroll position never resolves to a smaller pointer. *)
Theorem getCurrentPointer_monotone_in_scroll (vc vc' : VirtualContent) :
  offsets vc' = offsets vc ->
  getScrollTopForChunks vc <= getScrollTopForChunks vc' ->
  getCurrentPointer vc <= getCurrentPointer vc'.
Proof.
  intros Hoff Hscroll. unfold getCurrentPointer. rewrite Hoff.
  apply getCurrentPointer_loop_monotone; [done|done|lia|lia].
Qed.

Lemma getCurrentPointer_monotone_in_scroll_witness :
  offsets scrolled_past_measured = offsets scrolled_within_measured /\
  getScrollTopForChunks scrolled_within_measured
    <= getScrollTopForChunks scrolled_past_measured /\
  getCurrentPointer scrolled_within_measured <= getCurrentPointer scrolled_past_measured.
Proof.
  assert (Hoff : offsets scrolled_past_measured = offsets scrolled_within_measured)
    by (vm_compute; reflexivity).
  assert (Hscroll : getScrollTopForChunks scrolled_within_measured
                    <= getScrollTopForChunks scrolled_past_measured)
    by (vm_compute; discriminate).
  split; [exact Hoff|]. split; [exact Hscroll|].
  exact (getCurrentPointer_monotone_in_scroll
           scrolled_within_measured scrolled_past_measured Hoff Hscroll).
Defined.

(** ** Reading the geometry cache back *)

Lemma array_get_set_ne {A} (a : list (option A)) (i j : nat) (v : A) :
  j <> i -> array_get (array_set a i v) j = array_get a j.
Proof.
  intros Hne. unfold array_get, array_set.
  destruct (Nat.ltb_spec i (length a)) as [Hlt|Hge].
  - by rewrite list_lookup_insert_ne.
  - destruct (Nat.lt_ge_cases j (length a)) as [Hj|Hj].
    + by rewrite lookup_app_l.
    + rewrite (lookup_ge_None_2 a j) by lia.
      rewrite lookup_app_r by lia.
      destruct (Nat.lt_ge_cases (j - length a) (i - length a)) as [Hhole|Hpast].
      * rewrite lookup_app_l by (rewrite length_replicate; lia).
        by rewrite lookup_replicate_2.
      * rewrite lookup_app_r by (rewrite length_replicate; lia).
        rewrite length_replicate.
        rewrite lookup_ge_None_2; [done|]. simpl. lia.
Qed.

Lemma length_array_set {A} (a : list (option A)) (i : nat) (v : A) :
  length (array_set a i v) = (length a `max` S i)%nat.
Proof.
  unfold array_set. destruct (Nat.ltb_spec i (length a)).
  - rewrite length_insert. lia.
  - rewrite !length_app, length_replicate. simpl. lia.
Qed.

(** What a getter reads after a guarded write at [i]. *)
Lemma read_after_record (a : list (option Z)) (i j : nat) (v : Z) :
  or_zero (array_get (if falsy_number (array_get a i) then array_set a i v else a) j) =
  if decide (j = i)
  then (if or_zero (array_get a i) =? 0 then v else or_zero (array_get a i))
  else or_zero (array_get a j).
Proof.
  destruct (decide (j = i)) as [->|Hne].
  - unfold or_zero at 2 3.
    destruct (falsy_number (array_get a i)) eqn:Hslot.
    + rewrite array_get_set_eq. unfold or_zero. simpl.
      by destruct (Z.eqb_spec v 0).
    + unfold or_zero. rewrite Hslot.
      destruct (array_get a i) as [z|]; [|done]. simpl in *. by rewrite Hslot.
  - destruct (falsy_number (array_get a i)); [|done].
    by rewrite array_get_set_ne.
Qed.

Lemma storeChunkData_read_offsetTop (vc : VirtualContent) (i j : nat) (extras : Extras) :
  getChunkOffsetTop (storeChunkData i extras vc).2 j =
  if decide (j = i) then
    match offsetTop extras with
    | Some v => if getChunkOffsetTop vc i =? 0 then v else getChunkOffsetTop vc i
    | None => getChunkOffsetTop vc i
    end
  else getChunkOffsetTop vc j.
Proof.
  unfold getChunkOffsetTop. rewrite storeChunkData_offsets.
  destruct (offsetTop extras); [apply read_after_record|].
  by destruct (decide (j = i)) as [->|].
Qed.

Lemma storeChunkData_read_height (vc : VirtualContent) (i j : nat) (extras : Extras) :
  getChunkHeight (storeChunkData i extras vc).2 j =
  if decide (j = i) then
    match offsetHeight extras with
    | Some v => if getChunkHeight vc i =? 0 then v else getChunkHeight vc i
    | None => getChunkHeight vc i
    end
  else getChunkHeight vc j.
Proof.
  unfold getChunkHeight. rewrite storeChunkData_heights.
  destruct (offsetHeight extras); [apply read_after_record|].
  by destruct (decide (j = i)) as [->|].
Qed.

Lemma storeChunkData_read_leftPad (vc : VirtualContent) (i j : nat) (extras : Extras) :
  getChunkLeftPad (storeChunkData i extras vc).2 j =
  if decide (j = i) then
    match leftPad extras with
    | Some v => if getChunkLeftPad vc i =? 0 then v else getChunkLeftPad vc i
    | None => getChunkLeftPad vc i
    end
  else getChunkLeftPad vc j.
Proof.
  unfold getChunkLeftPad. rewrite storeChunkData_leftPads.
  destruct (leftPad extras); [apply read_after_record|].
  by destruct (decide (j = i)) as [->|].
Qed.

(** X9. After [storeChunkData] at an index, each getter reads at that
    index the new measurement when it read 0 before and a measurement was
    given, and what it read before otherwise; at every other index the
    three getters read what they read before. *)
Theorem storeChunkData_readings (vc : VirtualContent) (i : nat) (extras : Extras) :
  let vc' := (storeChunkData i extras vc).2 in
  getChunkOffsetTop vc' i =
    match offsetTop extras with
    | Some v => if getChunkOffsetTop vc i =? 0 then v else getChunkOffsetTop vc i
    | None => getChunkOffsetTop vc i
    end /\
  getChunkHeight vc' i =
    match offsetHeight extras with
    | Some v => if getChunkHeight vc i =? 0 then v else getChunkHeight vc i
    | None => getChunkHeight vc i
    end /\
  getChunkLeftPad vc' i =
    match leftPad extras with
    | Some v => if getChunkLeftPad vc i =? 0 then v else getChunkLeftPad vc i
    | None => getChunkLeftPad vc i
    end /\
  (forall j : nat, j <> i ->
     getChunkOffsetTop vc' j = getChunkOffsetTop vc j /\
     getChunkHeight vc' j = getChunkHeight vc j /\
     getChunkLeftPad vc' j = getChunkLeftPad vc j).
Proof.
  intros vc'. subst vc'.
  rewrite !storeChunkData_read_offsetTop, !storeChunkData_read_height,
    !storeChunkData_read_leftPad.
  rewrite !decide_True by done. repeat split; try done.
  - rewrite storeChunkData_read_offsetTop. by rewrite decide_False.
  - rewrite storeChunkData_read_height. by rewrite decide_False.
  - rewrite storeChunkData_read_leftPad. by rewrite decide_False.
Qed.

(** ** Heights above and below an index *)

Lemma sum_heights_from (l : list (option Z)) (a : Z) :
  foldl (fun result value => result + default 0 value) a l
  = a + foldl (fun result value => result + default 0 value) 0 l.
Proof.
  revert a. induction l as [|x l IH]; intros a; simpl; [lia|].
  rewrite (IH (a + default 0 x)), (IH (0 + default 0 x)). lia.
Qed.

(** X10. [getChunkOffsetTopByHeights] throws 'Bad chunk index' exactly
    when its argument is not 0 and exceeds the number of height slots; at
    0 it answers 0. *)
Theorem getChunkOffsetTopByHeights_throws (vc : VirtualContent) (chunkIndex : Z) :
  (getChunkOffsetTopByHeights vc chunkIndex = inl (Error "Bad chunk index") <->
   chunkIndex <> 0 /\ Z.of_nat (length (heights vc)) < chunkIndex) /\
  ((exists top, getChunkOffsetTopByHeights vc chunkIndex = inr top) <->
   chunkIndex = 0 \/ chunkIndex <= Z.of_nat (length (heights vc))) /\
  getChunkOffsetTopByHeights vc 0 = inr 0.
Proof.
  unfold getChunkOffsetTopByHeights.
  split; [|split; [|done]].
  - destruct (Z.eqb_spec chunkIndex 0) as [->|Hne];
      [|destruct (Z.ltb_spec (Z.of_nat (length (heights vc))) chunkIndex)];
      (split; [intros Hx; first [done | split; [done|lia]]
              |intros [Hx Hy]; first [done | lia]]).
  - destruct (Z.eqb_spec chunkIndex 0) as [->|Hne];
      [|destruct (Z.ltb_spec (Z.of_nat (length (heights vc))) chunkIndex)];
      (split; [intros Hx; first [by destruct Hx | left; lia | right; lia]
              |intros Hx; first [by eexists | destruct Hx; lia]]).
Qed.

(** X11. For an index k with 0 <= k <= heights.length and k <= n, the
    heights summed before k by [getChunkOffsetTopByHeights] and the heights
    summed from k on by [getBottomFillerHeightFor] add up to the heights
    summed from 0 on: the two fillers split the measured height. *)
Theorem fillers_split_total (vc : VirtualContent) (k : Z) :
  0 <= k <= Z.of_nat (length (heights vc)) ->
  k <= Z.of_nat (length (chunks vc)) ->
  exists top,
    getChunkOffsetTopByHeights vc k = inr top /\
    top + getBottomFillerHeightFor vc k = getBottomFillerHeightFor vc 0.
Proof.
  intros Hk Hn. unfold getChunkOffsetTopByHeights, getBottomFillerHeightFor.
  destruct (Z.eqb_spec k 0) as [->|Hne].
  - exists 0. split; [done|lia].
  - destruct (Z.ltb_spec (Z.of_nat (length (heights vc))) k); [lia|].
    eexists. split; [reflexivity|].
    rewrite slice_prefix. unfold slice.
    rewrite !(slice_index_in_range _ k) by lia.
    rewrite (slice_index_in_range _ 0) by lia.
    set (n := slice_index (length (heights vc)) (Z.of_nat (length (chunks vc)))).
    assert (Hkn : (Z.to_nat k <= n)%nat).
    { subst n. unfold slice_index.
      destruct (Z.ltb_spec (Z.of_nat (length (chunks vc))) 0); lia. }
    change (Z.to_nat 0) with 0%nat. rewrite drop_0, Nat.sub_0_r.
    replace n with (Z.to_nat k + (n - Z.to_nat k))%nat at 2 by lia.
    rewrite <- take_take_drop, foldl_app.
    rewrite (sum_heights_from (take (n - Z.to_nat k) _) (foldl _ 0 _)). lia.
Qed.

Lemma fillers_split_total_witness :
  0 <= 2 <= Z.of_nat (length (heights scrolled_within_measured)) /\
  2 <= Z.of_nat (length (chunks scrolled_within_measured)) /\
  exists top,
    getChunkOffsetTopByHeights scrolled_within_measured 2 = inr top /\
    top + getBottomFillerHeightFor scrolled_within_measured 2
    = getBottomFillerHeightFor scrolled_within_measured 0.
Proof.
  assert (H1 : 0 <= 2 <= Z.of_nat (length (heights scrolled_within_measured)))
    by (vm_compute; split; discriminate).
  assert (H2 : 2 <= Z.of_nat (length (chunks scrolled_within_measured)))
    by (vm_compute; discriminate).
  split; [exact H1|]. split; [exact H2|].
  exact (fillers_split_total scrolled_within_measured 2 H1 H2).
Defined.

(** ** What rendering keeps *)

Lemma same_setup_refl (vc : VirtualContent) : same_setup vc vc.
Proof. by repeat split. Qed.

Lemma same_setup_trans (a b c : VirtualContent) :
  same_setup a b -> same_setup b c -> same_setup a c.
Proof.
  unfold same_setup.
  intros (H1 & H2 & H3 & H4 & H5 & H6 & H7 & H8) (G1 & G2 & G3 & G4 & G5 & G6 & G7 & G8).
  repeat split; congruence.
Qed.

Lemma storeChunkData_same_setup (i : nat) (extras : Extras) (vc : VirtualContent) :
  same_setup vc (storeChunkData i extras vc).2 /\
  visibleIndexes (storeChunkData i extras vc).2 = visibleIndexes vc.
Proof.
  unfold same_setup, storeChunkData. run.
  destruct (offsetTop extras), (offsetHeight extras), (leftPad extras); simpl;
    repeat (case_match; simplify_eq/=); done.
Qed.

Lemma updateContentWithReplace_chunk_run (startOffset : Z) (i : nat) (vc : VirtualContent) :
  let chunkIndex := Z.to_nat (startOffset + Z.of_nat i) in
  let stored :=
    (storeChunkData chunkIndex (extras_of (calculateChunkData vc chunkIndex)) vc).2 in
  updateContentWithReplace_chunk startOffset i vc
  = (inr tt, set_visibleIndexes (visibleIndexes stored ++ [chunkIndex]) stored).
Proof.
  intros chunkIndex stored. subst stored.
  unfold updateContentWithReplace_chunk. run. fold chunkIndex.
  pose proof (storeChunkData_returns chunkIndex
                (extras_of (calculateChunkData vc chunkIndex)) vc) as Hret.
  destruct (storeChunkData chunkIndex _ vc) as [res st]. simpl in *. by subst res.
Qed.

(** Rendering the chunks [startOffset + a .. startOffset + a + m - 1]. *)
Lemma replace_window_spec (startOffset : Z) (m : nat) :
  0 <= startOffset ->
  forall (a : nat) (vc : VirtualContent),
  exists vc',
    for_each (updateContentWithReplace_chunk startOffset) (seq a m) vc = (inr tt, vc') /\
    same_setup vc vc' /\
    visibleIndexes vc' = visibleIndexes vc ++ seq (Z.to_nat startOffset + a) m /\
    forall j : nat,
      let inside :=
        bool_decide (Z.to_nat startOffset + a <= j < Z.to_nat startOffset + a + m)%nat in
      getChunkOffsetTop vc' j =
        (if inside
         then offered (getChunkOffsetTop vc j) (cd_offsetTop (layout (dom vc) j))
         else getChunkOffsetTop vc j) /\
      getChunkHeight vc' j =
        (if inside
         then offered (getChunkHeight vc j) (cd_offsetHeight (layout (dom vc) j))
         else getChunkHeight vc j) /\
      getChunkLeftPad vc' j =
        (if inside
         then offered (getChunkLeftPad vc j) (cd_leftPad (layout (dom vc) j))
         else getChunkLeftPad vc j).
Proof.
  intros Hstart. induction m as [|m IH]; intros a vc.
  - exists vc. split; [done|]. split; [apply same_setup_refl|].
    split; [by rewrite app_nil_r|].
    intros j. cbv zeta. rewrite bool_decide_eq_false_2 by lia. done.
  - simpl. run. rewrite updateContentWithReplace_chunk_run. cbv zeta.
    set (k := Z.to_nat (startOffset + Z.of_nat a)).
    assert (Hk : k = (Z.to_nat startOffset + a)%nat) by lia.
    set (stored := (storeChunkData k (extras_of (calculateChunkData vc k)) vc).2).
    destruct (storeChunkData_same_setup k (extras_of (calculateChunkData vc k)) vc)
      as [Hsetup Hvis].
    fold stored in Hsetup, Hvis.
    set (vc1 := set_visibleIndexes (visibleIndexes stored ++ [k]) stored).
    assert (Hsetup1 : same_setup vc vc1).
    { apply same_setup_trans with stored; [done|]. by repeat split. }
    destruct (IH (S a) vc1) as (vc' & Hrun & Hsetup' & Hvis' & Hread).
    exists vc'. split; [exact Hrun|].
    split; [by apply same_setup_trans with vc1|].
    split.
    { rewrite Hvis'. subst vc1. simpl. rewrite Hvis, Hk, <- app_assoc. simpl.
      do 3 f_equal. lia. }
    intros j. cbv zeta.
    destruct (Hread j) as (Hoff & Hhei & Hpad). clear Hread.
    assert (Hdom : dom vc1 = dom vc) by apply Hsetup1.
    rewrite Hdom in Hoff, Hhei, Hpad.
    assert (Hoff1 : getChunkOffsetTop vc1 j = getChunkOffsetTop stored j) by done.
    assert (Hhei1 : getChunkHeight vc1 j = getChunkHeight stored j) by done.
    assert (Hpad1 : getChunkLeftPad vc1 j = getChunkLeftPad stored j) by done.
    rewrite Hoff1 in Hoff. rewrite Hhei1 in Hhei. rewrite Hpad1 in Hpad.
    subst stored.
    rewrite storeChunkData_read_offsetTop in Hoff.
    rewrite storeChunkData_read_height in Hhei.
    rewrite storeChunkData_read_leftPad in Hpad.
    simpl in Hoff, Hhei, Hpad. unfold calculateChunkData in Hoff, Hhei, Hpad.
    fold (offered (getChunkOffsetTop vc k) (cd_offsetTop (layout (dom vc) k))) in Hoff.
    fold (offered (getChunkHeight vc k) (cd_offsetHeight (layout (dom vc) k))) in Hhei.
    fold (offered (getChunkLeftPad vc k) (cd_leftPad (layout (dom vc) k))) in Hpad.
    rewrite Hoff, Hhei, Hpad. clear Hoff Hhei Hpad.
    destruct (decide (j = k)) as [->|Hne].
    + rewrite (bool_decide_eq_false_2 (_ <= k < _)%nat) by lia.
      rewrite (bool_decide_eq_true_2 (_ <= k < _)%nat) by lia. done.
    + destruct (decide (Z.to_nat startOffset + S a <= j < Z.to_nat startOffset + S a + m)%nat).
      * rewrite !bool_decide_eq_true_2 by lia. done.
      * rewrite !bool_decide_eq_false_2 by lia. done.
Qed.

Lemma range_bounds (vc : VirtualContent) (p : Z) :
  0 < threshold vc ->
  0 <= (getChunkRangeForReplacement vc p).1 /\
  (getChunkRangeForReplacement vc p).1 <= (getChunkRangeForReplacement vc p).2 /\
  (getChunkRangeForReplacement vc p).2 <= Z.of_nat (length (chunks vc)).
Proof. intros Ht. repeat split; range_cases; lia. Qed.

Lemma updateContentWithReplace_spec (vc : VirtualContent) (prevPointer p : Z) :
  0 < threshold vc ->
  let first := Z.to_nat (getChunkRangeForReplacement vc p).1 in
  let last := Z.to_nat (getChunkRangeForReplacement vc p).2 in
  exists vc',
    updateContentWithReplace prevPointer p vc = (inr tt, vc') /\
    same_setup vc vc' /\
    visibleIndexes vc' = seq first (last - first) /\
    forall j : nat,
      let inside := bool_decide (first <= j < last)%nat in
      getChunkOffsetTop vc' j =
        (if inside
         then offered (getChunkOffsetTop vc j) (cd_offsetTop (layout (dom vc) j))
         else getChunkOffsetTop vc j) /\
      getChunkHeight vc' j =
        (if inside
         then offered (getChunkHeight vc j) (cd_offsetHeight (layout (dom vc) j))
         else getChunkHeight vc j) /\
      getChunkLeftPad vc' j =
        (if inside
         then offered (getChunkLeftPad vc j) (cd_leftPad (layout (dom vc) j))
         else getChunkLeftPad vc j).
Proof.
  intros Ht first last.
  destruct (range_bounds vc p Ht) as (H0 & Hle & Hn).
  unfold updateContentWithReplace. run.
  subst first last.
  destruct (getChunkRangeForReplacement vc p) as [startOffset endOffset]. simpl in *.
  assert (Hlen : length (slice (chunks vc) startOffset endOffset)
                 = (Z.to_nat endOffset - Z.to_nat startOffset)%nat).
  { pose proof (length_slice (chunks vc) startOffset endOffset ltac:(lia) Hn). lia. }
  rewrite Hlen.
  destruct (replace_window_spec startOffset (Z.to_nat endOffset - Z.to_nat startOffset)
              H0 0%nat (set_visibleIndexes [] vc))
    as (vc' & Hrun & Hsetup & Hvis & Hread).
  exists vc'. split; [exact Hrun|].
  split; [apply same_setup_trans with (set_visibleIndexes [] vc); [by repeat split|done]|].
  split; [rewrite Hvis; simpl; f_equal; lia|].
  intros j. cbv zeta.
  destruct (Hread j) as (Hoff & Hhei & Hpad).
  replace (Z.to_nat startOffset + 0 + (Z.to_nat endOffset - Z.to_nat startOffset))%nat
    with (Z.to_nat endOffset) in Hoff, Hhei, Hpad by lia.
  rewrite Nat.add_0_r in Hoff, Hhei, Hpad.
  done.
Qed.



(** X13. After [updateContentWithReplace], with a positive threshold, each
    of the three getters reads, at an index of the range, the measurement
    of the layout where it read 0 before and its former reading where it
    did not, and at every index outside the range its former reading. *)
Theorem updateContentWithReplace_geometry (vc : VirtualContent) (prevPointer p : Z) (j : nat) :
  0 < threshold vc ->
  let vc' := (updateContentWithReplace prevPointer p vc).2 in
  let inside :=
    bool_decide (Z.to_nat (getChunkRangeForReplacement vc p).1 <= j
                 < Z.to_nat (getChunkRangeForReplacement vc p).2)%nat in
  getChunkOffsetTop vc' j =
    (if inside
     then offered (getChunkOffsetTop vc j) (cd_offsetTop (layout (dom vc) j))
     else getChunkOffsetTop vc j) /\
  getChunkHeight vc' j =
    (if inside
     then offered (getChunkHeight vc j) (cd_offsetHeight (layout (dom vc) j))
     else getChunkHeight vc j) /\
  getChunkLeftPad vc' j =
    (if inside
     then offered (getChunkLeftPad vc j) (cd_leftPad (layout (dom vc) j))
     else getChunkLeftPad vc j).
Proof.
  intros Ht vc' inside. subst vc' inside.
  destruct (updateContentWithReplace_spec vc prevPointer p Ht)
    as (vc' & Hrun & _ & _ & Hread).
  rewrite Hrun. simpl. apply Hread.
Qed.

Lemma updateContentWithReplace_geometry_witness :
  0 < threshold sample10 /\
  let vc' := (updateContentWithReplace 0 5 sample10).2 in
  let inside :=
    bool_decide (Z.to_nat (getChunkRangeForReplacement sample10 5).1 <= 4
                 < Z.to_nat (getChunkRangeForReplacement sample10 5).2)%nat in
  getChunkOffsetTop vc' 4 =
    (if inside
     then offered (getChunkOffsetTop sample10 4) (cd_offsetTop (layout (dom sample10) 4))
     else getChunkOffsetTop sample10 4) /\
  getChunkHeight vc' 4 =
    (if inside
     then offered (getChunkHeight sample10 4) (cd_offsetHeight (layout (dom sample10) 4))
     else getChunkHeight sample10 4) /\
  getChunkLeftPad vc' 4 =
    (if inside
     then offered (getChunkLeftPad sample10 4) (cd_leftPad (layout (dom sample10) 4))
     else getChunkLeftPad sample10 4).
Proof.
  assert (Ht : 0 < threshold sample10) by (vm_compute; reflexivity).
  split; [exact Ht|].
  exact (updateContentWithReplace_geometry sample10 0 5 4 Ht).
Defined.



(** ** Rendering in append mode *)

Lemma or_zero_Some (v : Z) : or_zero (Some v) = v.
Proof. unfold or_zero. simpl. by destruct (Z.eqb_spec v 0). Qed.

Lemma getLastVisible_lower (vc : VirtualContent) : -1 <= getLastVisible vc.
Proof. unfold getLastVisible. destruct (last (visibleIndexes vc)); lia. Qed.

Lemma updateContentWithAppend_loop_spec (last : Z) (fuel : nat) :
  forall (i : nat) (vc : VirtualContent),
  let m := (fuel `min` Z.to_nat (last - Z.of_nat i))%nat in
  exists vc',
    updateContentWithAppend_loop last fuel i vc = (inr tt, vc') /\
    same_setup vc vc' /\
    heights vc' = heights vc /\
    leftPads vc' = leftPads vc /\
    visibleIndexes vc' = visibleIndexes vc ++ seq i m /\
    forall j : nat,
      getChunkOffsetTop vc' j =
        if bool_decide (i <= j < i + m)%nat
        then cd_offsetTop (layout (dom vc) j)
        else getChunkOffsetTop vc j.
Proof.
  induction fuel as [|fuel IH]; intros i vc; cbv zeta.
  - exists vc. simpl. split; [done|]. split; [apply same_setup_refl|].
    do 2 (split; [done|]). split; [by rewrite app_nil_r|].
    intros j. rewrite bool_decide_eq_false_2 by lia. done.
  - simpl updateContentWithAppend_loop.
    destruct (Z.ltb_spec (Z.of_nat i) last) as [Hlt|Hge].
    + remember (fuel `min` Z.to_nat (last - Z.of_nat (S i)))%nat as m' eqn:Hm'.
      replace (S fuel `min` Z.to_nat (last - Z.of_nat i))%nat with (S m') by lia.
      run.
      set (vc1 := set_visibleIndexes (visibleIndexes vc ++ [i])
                    (set_offsets
                       (array_set (offsets vc) i (cd_offsetTop (calculateChunkData vc i)))
                       vc)).
      destruct (IH (S i) vc1) as (vc' & Hrun & Hsetup & Hhei & Hpad & Hvis & Hread).
      rewrite <- Hm' in Hvis, Hread.
      exists vc'. split; [exact Hrun|].
      split; [apply same_setup_trans with vc1; [repeat split|done]|].
      split; [by rewrite Hhei|]. split; [by rewrite Hpad|].
      split.
      { rewrite Hvis. subst vc1. simpl. by rewrite <- app_assoc. }
      intros j. rewrite Hread.
      assert (Hread1 : getChunkOffsetTop vc1 j =
                       if decide (j = i) then cd_offsetTop (layout (dom vc) i)
                       else getChunkOffsetTop vc j).
      { subst vc1. unfold getChunkOffsetTop, calculateChunkData. simpl.
        destruct (decide (j = i)) as [->|Hne].
        - by rewrite array_get_set_eq, or_zero_Some.
        - by rewrite array_get_set_ne. }
      rewrite Hread1.
      assert (Hdom : dom vc1 = dom vc) by done. rewrite Hdom.
      destruct (decide (j = i)) as [->|Hne].
      * rewrite (bool_decide_eq_false_2 (S i <= i < _)%nat) by lia.
        rewrite bool_decide_eq_true_2 by lia. done.
      * destruct (decide (S i <= j < S i + m')%nat).
        -- rewrite !bool_decide_eq_true_2 by lia. done.
        -- rewrite !bool_decide_eq_false_2 by lia. done.
    + replace (S fuel `min` Z.to_nat (last - Z.of_nat i))%nat with 0%nat by lia.
      exists vc. split; [done|]. split; [apply same_setup_refl|].
      do 2 (split; [done|]).
      split; [by rewrite app_nil_r|].
      intros j. rewrite bool_decide_eq_false_2 by lia. done.
Qed.

Lemma updateContentWithAppend_spec (vc : VirtualContent) (prevPointer p : Z) :
  let first := Z.to_nat (getLastVisible vc + 1) in
  let last := Z.min (p + threshold vc) (Z.of_nat (length (chunks vc))) in
  let added := Z.to_nat (last - Z.of_nat first) in
  exists vc',
    updateContentWithAppend prevPointer p vc = (inr tt, vc') /\
    same_setup vc vc' /\
    heights vc' = heights vc /\
    leftPads vc' = leftPads vc /\
    visibleIndexes vc' = visibleIndexes vc ++ seq first added /\
    forall j : nat,
      getChunkOffsetTop vc' j =
        if bool_decide (first <= j < first + added)%nat
        then cd_offsetTop (layout (dom vc) j)
        else getChunkOffsetTop vc j.
Proof.
  intros first last added.
  pose proof (getLastVisible_lower vc) as Hlow.
  unfold updateContentWithAppend. run. fold last.
  assert (Hfirst : (if getLastVisible vc + 1 =? 0 then 0 else getLastVisible vc + 1)
                   = getLastVisible vc + 1)
    by (destruct (Z.eqb_spec (getLastVisible vc + 1) 0); lia).
  rewrite Hfirst. fold first.
  destruct (updateContentWithAppend_loop_spec last
              (Z.to_nat (last - (getLastVisible vc + 1))) first vc)
    as (vc' & Hrun & Hsetup & Hhei & Hpad & Hvis & Hread).
  replace (Z.to_nat (last - (getLastVisible vc + 1))
           `min` Z.to_nat (last - Z.of_nat first))%nat
    with added in Hvis, Hread by (subst added first; lia).
  by exists vc'.
Qed.

(** X15. [updateContentWithAppend] returns normally and only appends: the
    indexes that were visible stay, in their order, followed by the
    consecutive indexes from the one after the last visible index up to
    (excluding) min(pointer + threshold, n); heights and left pads are not
    written, configuration, chunks, pointer, stored width and document
    are untouched. *)
Theorem updateContentWithAppend_appends (vc : VirtualContent) (prevPointer p : Z) :
  let first := Z.to_nat (getLastVisible vc + 1) in
  let last := Z.min (p + threshold vc) (Z.of_nat (length (chunks vc))) in
  exists vc',
    updateContentWithAppend prevPointer p vc = (inr tt, vc') /\
    same_setup vc vc' /\
    heights vc' = heights vc /\
    leftPads vc' = leftPads vc /\
    visibleIndexes vc' =
      visibleIndexes vc ++ seq first (Z.to_nat (last - Z.of_nat first)).
Proof.
  intros first last.
  destruct (updateContentWithAppend_spec vc prevPointer p)
    as (vc' & Hrun & Hsetup & Hhei & Hpad & Hvis & _).
  by exists vc'.
Qed.

(** X16. After [updateContentWithAppend] the offset getter reads, at every
    index the call made visible, the offset the layout gives to that chunk
    element, whatever the slot held before, and at every other index what
    it read before. *)
Theorem updateContentWithAppend_offsets (vc : VirtualContent) (prevPointer p : Z) (j : nat) :
  let first := Z.to_nat (getLastVisible vc + 1) in
  let last := Z.min (p + threshold vc) (Z.of_nat (length (chunks vc))) in
  let vc' := (updateContentWithAppend prevPointer p vc).2 in
  getChunkOffsetTop vc' j =
    if bool_decide (first <= j < first + Z.to_nat (last - Z.of_nat first))%nat
    then cd_offsetTop (layout (dom vc) j)
    else getChunkOffsetTop vc j.
Proof.
  intros first last vc'. subst vc'.
  destruct (updateContentWithAppend_spec vc prevPointer p)
    as (vc' & Hrun & _ & _ & _ & _ & Hread).
  rewrite Hrun. simpl. apply Hread.
Qed.




(** ** Rendering, whatever the mode *)

Lemma range_start_nonneg (vc : VirtualContent) (p : Z) :
  0 <= (getChunkRangeForReplacement vc p).1.
Proof. range_cases; lia. Qed.

Lemma updateContent_same_setup (vc : VirtualContent) :
  exists vc', updateContent vc = (inr tt, vc') /\ same_setup vc vc'.
Proof.
  unfold updateContent. run. destruct (mode vc).
  - unfold updateContentWithReplace. run.
    pose proof (range_start_nonneg vc 0) as Hstart.
    destruct (getChunkRangeForReplacement vc 0) as [startOffset endOffset]. simpl in *.
    destruct (replace_window_spec startOffset
                (length (slice (chunks vc) startOffset endOffset))
                Hstart 0%nat (set_visibleIndexes [] vc))
      as (vc' & Hrun & Hsetup & _).
    exists vc'. split; [exact Hrun|].
    apply same_setup_trans with (set_visibleIndexes [] vc); [repeat split|done].
  - destruct (updateContentWithAppend_spec vc 0 0) as (vc' & Hrun & Hsetup & _).
    by exists vc'.
Qed.

Lemma needUpdate_run (vc : VirtualContent) (prevPointer nextPointer : Z) :
  exists b : bool, needUpdate prevPointer nextPointer vc = (inr b, vc).
Proof.
  unfold needUpdate. run.
  destruct (mode vc); [destruct (prevPointer =? nextPointer)|]; by eexists.
Qed.

(** ** Setting content, end to end *)



(** What [setText] and [setHtml] leave once the argument is accepted. *)
Lemma content_rendered (ty : ContentType) (cs : list JsString) (vc : VirtualContent) :
  let fresh := content_replaced ty cs vc in
  exists vc',
    (if parentNode (dom vc) then updateContent fresh else (inr tt, fresh)) = (inr tt, vc') /\
    same_setup fresh vc' /\
    (parentNode (dom vc) = false -> vc' = fresh).
Proof.
  intros fresh. destruct (parentNode (dom vc)).
  - destruct (updateContent_same_setup fresh) as (vc' & Hrun & Hsetup).
    exists vc'. split; [exact Hrun|]. split; [exact Hsetup|done].
  - exists fresh. split; [done|]. split; [apply same_setup_refl|done].
Qed.

(** X18. [setText] and [setHtml] of a string return normally; afterwards
    the chunks are those of the splitter for the instance's chunk length,
    the content type is the one of the method, the pointer is 0, the
    scrollable is scrolled to the top, and chunk length, mode and threshold
    are as they were; on an instance that is not attached the three caches
    are empty and nothing is visible. *)
Theorem setText_setHtml_reset (s : JsString) (vc : VirtualContent) :
  (exists vc',
     setText (VString s) vc = (inr tt, vc') /\
     chunks vc' = splitString s (chunkLength vc) /\
     contentType vc' = TEXT_TYPE /\ pointer vc' = 0 /\ scrollTop (dom vc') = 0 /\
     chunkLength vc' = chunkLength vc /\ mode vc' = mode vc /\
     threshold vc' = threshold vc /\
     (parentNode (dom vc) = false ->
      offsets vc' = [] /\ heights vc' = [] /\ leftPads vc' = [] /\
      visibleIndexes vc' = [])) /\
  (exists vc',
     setHtml (VString s) vc = (inr tt, vc') /\
     chunks vc' = splitHtml s (chunkLength vc) /\
     contentType vc' = HTML_TYPE /\ pointer vc' = 0 /\ scrollTop (dom vc') = 0 /\
     chunkLength vc' = chunkLength vc /\ mode vc' = mode vc /\
     threshold vc' = threshold vc /\
     (parentNode (dom vc) = false ->
      offsets vc' = [] /\ heights vc' = [] /\ leftPads vc' = [] /\
      visibleIndexes vc' = [])).
Proof.
  split.
  - rewrite setText_run. simpl validateString. cbv zeta iota beta.
    destruct (content_rendered TEXT_TYPE (splitString s (chunkLength vc)) vc)
      as (vc' & Hrun & Hsetup & Hfresh).
    exists vc'. split; [exact Hrun|].
    destruct Hsetup as (H1 & H2 & H3 & H4 & H5 & H6 & H7 & H8).
    rewrite H1, H2, H3, H4, H5, H6, H8.
    repeat split; try done; by rewrite Hfresh.
  - rewrite setHtml_run. simpl validateString. cbv zeta iota beta.
    destruct (content_rendered HTML_TYPE (splitHtml s (chunkLength vc)) vc)
      as (vc' & Hrun & Hsetup & Hfresh).
    exists vc'. split; [exact Hrun|].
    destruct Hsetup as (H1 & H2 & H3 & H4 & H5 & H6 & H7 & H8).
    rewrite H1, H2, H3, H4, H5, H6, H8.
    repeat split; try done; by rewrite Hfresh.
Qed.


(** ** What is shown after content is set or attached *)

Lemma offered_unmeasured (measurement : Z) : offered 0 measurement = measurement.
Proof. reflexivity. Qed.

(** Rendering in replace mode an instance whose caches are empty. *)
Lemma first_window_from_empty (vc : VirtualContent) :
  mode vc = REPLACE_MODE ->
  0 < threshold vc ->
  offsets vc = [] -> heights vc = [] -> leftPads vc = [] ->
  let shown :=
    Z.to_nat (Z.min (2 * threshold vc) (Z.of_nat (length (chunks vc)))) in
  exists vc',
    updateContent vc = (inr tt, vc') /\
    same_setup vc vc' /\
    visibleIndexes vc' = seq 0 shown /\
    forall j : nat,
      getChunkOffsetTop vc' j =
        (if bool_decide (j < shown)%nat then cd_offsetTop (layout (dom vc) j) else 0) /\
      getChunkHeight vc' j =
        (if bool_decide (j < shown)%nat then cd_offsetHeight (layout (dom vc) j) else 0) /\
      getChunkLeftPad vc' j =
        (if bool_decide (j < shown)%nat then cd_leftPad (layout (dom vc) j) else 0).
Proof.
  intros Hmode Ht Hoff Hhei Hpad shown.
  destruct (updateContentWithReplace_spec vc 0 0 Ht)
    as (vc' & Hrun & Hsetup & Hvis & Hread).
  assert (Hrange : getChunkRangeForReplacement vc 0
                   = (0, Z.min (2 * threshold vc) (Z.of_nat (length (chunks vc)))))
    by (range_cases; f_equal; lia).
  rewrite Hrange in Hvis, Hread. simpl in Hvis, Hread. fold shown in Hvis, Hread.
  exists vc'. unfold updateContent. run. rewrite Hmode.
  split; [exact Hrun|]. split; [exact Hsetup|].
  split; [rewrite Hvis; f_equal; lia|].
  intros j. destruct (Hread j) as (H1 & H2 & H3).
  assert (Hzero : getChunkOffsetTop vc j = 0 /\ getChunkHeight vc j = 0
                  /\ getChunkLeftPad vc j = 0).
  { unfold getChunkOffsetTop, getChunkHeight, getChunkLeftPad.
    rewrite Hoff, Hhei, Hpad. by destruct j. }
  destruct Hzero as (Z1 & Z2 & Z3).
  rewrite Z1, Z2, Z3, !offered_unmeasured in *.
  rewrite H1, H2, H3.
  destruct (decide (j < shown)%nat).
  - rewrite !bool_decide_eq_true_2 by lia. done.
  - rewrite !bool_decide_eq_false_2 by lia. done.
Qed.

(** X20. On an attached instance in replace mode with a positive
    threshold, [setText] of a string returns normally and shows exactly
    the first min(2 * threshold, n) of the n chunks; each getter then reads
    the layout's measurement at the shown indexes and 0 elsewhere. *)
Theorem setText_shows_first_window (s : JsString) (vc : VirtualContent) :
  parentNode (dom vc) = true ->
  mode vc = REPLACE_MODE ->
  0 < threshold vc ->
  let shown :=
    Z.to_nat (Z.min (2 * threshold vc)
                    (Z.of_nat (length (splitString s (chunkLength vc))))) in
  exists vc',
    setText (VString s) vc = (inr tt, vc') /\
    chunks vc' = splitString s (chunkLength vc) /\
    visibleIndexes vc' = seq 0 shown /\
    forall j : nat,
      getChunkOffsetTop vc' j =
        (if bool_decide (j < shown)%nat then cd_offsetTop (layout (dom vc) j) else 0) /\
      getChunkHeight vc' j =
        (if bool_decide (j < shown)%nat then cd_offsetHeight (layout (dom vc) j) else 0) /\
      getChunkLeftPad vc' j =
        (if bool_decide (j < shown)%nat then cd_leftPad (layout (dom vc) j) else 0).
Proof.
  intros Hattached Hmode Ht shown.
  rewrite setText_run. simpl validateString. cbv zeta iota beta. rewrite Hattached.
  destruct (first_window_from_empty
              (content_replaced TEXT_TYPE (splitString s (chunkLength vc)) vc)
              Hmode Ht eq_refl eq_refl eq_refl)
    as (vc' & Hrun & Hsetup & Hvis & Hread).
  exists vc'. split; [exact Hrun|].
  split; [apply Hsetup|]. split; [exact Hvis|exact Hread].
Qed.

Lemma setText_shows_first_window_witness :
  parentNode (dom sample) = true /\
  mode sample = REPLACE_MODE /\
  0 < threshold sample /\
  let shown :=
    Z.to_nat (Z.min (2 * threshold sample)
                    (Z.of_nat (length (splitString (str "0123456789ab") (chunkLength sample))))) in
  exists vc',
    setText (VString (str "0123456789ab")) sample = (inr tt, vc') /\
    chunks vc' = splitString (str "0123456789ab") (chunkLength sample) /\
    visibleIndexes vc' = seq 0 shown /\
    forall j : nat,
      getChunkOffsetTop vc' j =
        (if bool_decide (j < shown)%nat then cd_offsetTop (layout (dom sample) j) else 0) /\
      getChunkHeight vc' j =
        (if bool_decide (j < shown)%nat then cd_offsetHeight (layout (dom sample) j) else 0) /\
      getChunkLeftPad vc' j =
        (if bool_decide (j < shown)%nat then cd_leftPad (layout (dom sample) j) else 0).
Proof.
  assert (Ha : parentNode (dom sample) = true) by (vm_compute; reflexivity).
  assert (Hm : mode sample = REPLACE_MODE) by (vm_compute; reflexivity).
  assert (Ht : 0 < threshold sample) by (vm_compute; reflexivity).
  split; [exact Ha|]. split; [exact Hm|]. split; [exact Ht|].
  exact (setText_shows_first_window (str "0123456789ab") sample Ha Hm Ht).
Defined.

(** ** Attaching *)

Lemma renderTo_run (el : Container) (vc : VirtualContent) :
  let attached := set_lastWidth (Some (offsetWidth (dom vc))) (set_parentNode true vc) in
  renderTo (Some el) vc =
  if (0 <? length (chunks vc))%nat then updateContent attached else (inr tt, attached).
Proof.
  intros attached. unfold renderTo, storeWidth. run.
  by destruct (0 <? length (chunks vc))%nat.
Qed.

(** X21. [renderTo] without a container throws a TypeError and leaves the
    instance as it was. With a container it returns normally; the instance
    is then attached, the width of its element is the stored width (so
    [widthHasChanged] is false), and configuration, content type, chunks
    and pointer are as they were; with no chunks nothing is rendered and
    the caches and the visible indexes are as they were. *)
Theorem renderTo_attaches (el : Container) (vc : VirtualContent) :
  renderTo None vc = (inl (TypeError "Unsupported element"), vc) /\
  exists vc',
    renderTo (Some el) vc = (inr tt, vc') /\
    parentNode (dom vc') = true /\
    lastWidth vc' = Some (offsetWidth (dom vc)) /\
    widthHasChanged vc' = false /\
    chunkLength vc' = chunkLength vc /\ mode vc' = mode vc /\
    threshold vc' = threshold vc /\ contentType vc' = contentType vc /\
    chunks vc' = chunks vc /\ pointer vc' = pointer vc /\
    (chunks vc = [] ->
     offsets vc' = offsets vc /\ heights vc' = heights vc /\
     leftPads vc' = leftPads vc /\ visibleIndexes vc' = visibleIndexes vc).
Proof.
  split; [done|].
  rewrite renderTo_run. cbv zeta.
  set (attached := set_lastWidth (Some (offsetWidth (dom vc))) (set_parentNode true vc)).
  assert (Hfacts : forall vc',
             same_setup attached vc' ->
             parentNode (dom vc') = true /\
             lastWidth vc' = Some (offsetWidth (dom vc)) /\
             widthHasChanged vc' = false /\
             chunkLength vc' = chunkLength vc /\ mode vc' = mode vc /\
             threshold vc' = threshold vc /\ contentType vc' = contentType vc /\
             chunks vc' = chunks vc /\ pointer vc' = pointer vc).
  { intros vc' (H1 & H2 & H3 & H4 & H5 & H6 & H7 & H8).
    unfold widthHasChanged. rewrite H1, H2, H3, H4, H5, H6, H7, H8.
    repeat split; try done. simpl. by rewrite bool_decide_eq_true_2. }
  destruct (chunks vc) as [|c cs] eqn:Hch.
  - simpl. exists attached. split; [done|].
    destruct (Hfacts attached (same_setup_refl attached))
      as (F1 & F2 & F3 & F4 & F5 & F6 & F7 & F8 & F9).
    by repeat split.
  - simpl. destruct (updateContent_same_setup attached) as (vc' & Hrun & Hsetup).
    exists vc'. split; [exact Hrun|].
    destruct (Hfacts vc' Hsetup) as (F1 & F2 & F3 & F4 & F5 & F6 & F7 & F8 & F9).
    by repeat split.
Qed.

(** X22. The usual start of a replace-mode instance: content set while
    detached, then attached. With a positive threshold both calls return
    normally and the first min(2 * threshold, n) of the n chunks are shown,
    the getters reading the layout's measurements there and 0 elsewhere. *)
Theorem setText_then_renderTo (s : JsString) (el : Container) (vc : VirtualContent) :
  parentNode (dom vc) = false ->
  mode vc = REPLACE_MODE ->
  0 < threshold vc ->
  let shown :=
    Z.to_nat (Z.min (2 * threshold vc)
                    (Z.of_nat (length (splitString s (chunkLength vc))))) in
  exists vc1 vc2,
    setText (VString s) vc = (inr tt, vc1) /\
    renderTo (Some el) vc1 = (inr tt, vc2) /\
    chunks vc2 = splitString s (chunkLength vc) /\
    pointer vc2 = 0 /\
    visibleIndexes vc2 = seq 0 shown /\
    forall j : nat,
      getChunkOffsetTop vc2 j =
        (if bool_decide (j < shown)%nat then cd_offsetTop (layout (dom vc) j) else 0) /\
      getChunkHeight vc2 j =
        (if bool_decide (j < shown)%nat then cd_offsetHeight (layout (dom vc) j) else 0) /\
      getChunkLeftPad vc2 j =
        (if bool_decide (j < shown)%nat then cd_leftPad (layout (dom vc) j) else 0).
Proof.
  intros Hdetached Hmode Ht shown.
  set (fresh := content_replaced TEXT_TYPE (splitString s (chunkLength vc)) vc).
  exists fresh.
  assert (Hset : setText (VString s) vc = (inr tt, fresh)).
  { rewrite setText_run. simpl validateString. cbv zeta iota beta. by rewrite Hdetached. }
  rewrite renderTo_run. cbv zeta.
  set (attached := set_lastWidth (Some (offsetWidth (dom fresh))) (set_parentNode true fresh)).
  destruct (first_window_from_empty attached Hmode Ht eq_refl eq_refl eq_refl)
    as (vc2 & Hrun & Hsetup & Hvis & Hread).
  assert (Hchunks : chunks attached = splitString s (chunkLength vc)) by done.
  rewrite Hchunks in Hvis, Hread. fold shown in Hvis, Hread.
  destruct (splitString s (chunkLength vc)) as [|c cs] eqn:Hsplit.
  - exists attached. split; [exact Hset|].
    assert (Hnone : chunks fresh = []) by (subst fresh; simpl; done).
    rewrite Hnone. simpl. split; [done|].
    assert (Hshown : shown = 0%nat) by (subst shown; simpl; lia).
    rewrite Hshown. split; [done|]. split; [done|]. split; [done|].
    intros j. rewrite !bool_decide_eq_false_2 by lia. by destruct j.
  - exists vc2. split; [exact Hset|].
    assert (Hsome : chunks fresh = c :: cs) by (subst fresh; simpl; done).
    rewrite Hsome. simpl. split; [exact Hrun|].
    destruct Hsetup as (_ & _ & _ & _ & Hch & Hp & _).
    split; [by rewrite Hch|]. split; [by rewrite Hp|]. split; [exact Hvis|exact Hread].
Qed.

Lemma setText_then_renderTo_witness :
  parentNode (dom (set_parentNode false sample)) = false /\
  mode (set_parentNode false sample) = REPLACE_MODE /\
  0 < threshold (set_parentNode false sample) /\
  exists vc1 vc2,
    setText (VString (str "0123456789ab")) (set_parentNode false sample) = (inr tt, vc1) /\
    renderTo (Some DomElement) vc1 = (inr tt, vc2) /\
    visibleIndexes vc2 = seq 0 3.
Proof.
  assert (Ha : parentNode (dom (set_parentNode false sample)) = false)
    by (vm_compute; reflexivity).
  assert (Hm : mode (set_parentNode false sample) = REPLACE_MODE) by (vm_compute; reflexivity).
  assert (Ht : 0 < threshold (set_parentNode false sample)) by (vm_compute; reflexivity).
  split; [exact Ha|]. split; [exact Hm|]. split; [exact Ht|].
  destruct (setText_then_renderTo (str "0123456789ab") DomElement
              (set_parentNode false sample) Ha Hm Ht)
    as (vc1 & vc2 & H1 & H2 & _ & _ & H5 & _).
  exists vc1, vc2. split; [exact H1|]. split; [exact H2|]. exact H5.
Defined.

(** ** The scroll handler *)

Lemma width_checked (vc1 : VirtualContent) :
  exists vc2,
    (if widthHasChanged vc1 then recalculate else mret tt) vc1 = (inr tt, vc2) /\
    lastWidth vc2 = Some (offsetWidth (dom vc1)) /\
    chunkLength vc2 = chunkLength vc1 /\ mode vc2 = mode vc1 /\
    threshold vc2 = threshold vc1 /\ contentType vc2 = contentType vc1 /\
    chunks vc2 = chunks vc1 /\ pointer vc2 = pointer vc1 /\ dom vc2 = dom vc1.
Proof.
  unfold widthHasChanged. case_bool_decide as Hw; simpl.
  - exists vc1. by repeat split.
  - unfold recalculate, storeWidth. run. eexists. split; [reflexivity|].
    by repeat split.
Qed.

Lemma onScroll_spec (vc : VirtualContent) :
  exists vc',
    onScroll vc = (inr tt, vc') /\
    pointer vc' = getCurrentPointer vc /\
    lastWidth vc' = Some (offsetWidth (dom vc)) /\
    chunkLength vc' = chunkLength vc /\ mode vc' = mode vc /\
    threshold vc' = threshold vc /\ contentType vc' = contentType vc /\
    chunks vc' = chunks vc /\ dom vc' = dom vc.
Proof.
  unfold onScroll. run.
  destruct (width_checked (set_pointer (getCurrentPointer vc) vc))
    as (vc2 & Hrun2 & Hw & H1 & H2 & H3 & H4 & H5 & H6 & H8).
  unfold mret, M_ret in Hrun2. rewrite Hrun2. simpl in *.
  destruct (needUpdate_run vc2 (pointer vc) (getCurrentPointer vc)) as [update ->].
  destruct update; simpl.
  - destruct (updateContent_same_setup vc2) as (vc3 & -> & Hsetup3).
    destruct Hsetup3 as (G1 & G2 & G3 & G4 & G5 & G6 & G7 & G8).
    destruct (mode vc3) eqn:Hmode3.
    + unfold setScrollTop. run. eexists. split; [reflexivity|]. simpl.
      rewrite G1, G3, G4, G5, G6, G7, G8, H1, H3, H4, H5, H6, H8.
      repeat split; try done; try congruence.
      unfold getScrollTop. by destruct (dom vc).
    + exists vc3. split; [done|].
      rewrite G1, G3, G4, G5, G6, G7, G8, H1, H3, H4, H5, H6, H8.
      repeat split; try done; congruence.
  - exists vc2. split; [done|]. by repeat split.
Qed.

(** X23. The scroll handler returns normally, whatever the mode; afterwards
    the pointer is the one resolved from the state it found, the stored
    width is the width of the element, and configuration, content type,
    chunks and the document, scroll position included, are as they were. *)
Theorem onScroll_updates_pointer (vc : VirtualContent) :
  exists vc',
    onScroll vc = (inr tt, vc') /\
    pointer vc' = getCurrentPointer vc /\
    lastWidth vc' = Some (offsetWidth (dom vc)) /\
    widthHasChanged vc' = false /\
    chunkLength vc' = chunkLength vc /\ mode vc' = mode vc /\
    threshold vc' = threshold vc /\ contentType vc' = contentType vc /\
    chunks vc' = chunks vc /\ dom vc' = dom vc.
Proof.
  destruct (onScroll_spec vc) as (vc' & Hrun & Hp & Hw & H1 & H2 & H3 & H4 & H5 & Hd).
  exists vc'. repeat split; try done.
  unfold widthHasChanged. rewrite Hw, Hd. by rewrite bool_decide_eq_true_2.
Qed.

(** X24. In replace mode the scroll handler changes nothing at all when
    the width has not changed and the scroll position still resolves to
    the pointer of the instance. *)
Theorem onScroll_same_pointer (vc : VirtualContent) :
  mode vc = REPLACE_MODE ->
  widthHasChanged vc = false ->
  getCurrentPointer vc = pointer vc ->
  onScroll vc = (inr tt, vc).
Proof.
  intros Hmode Hwidth Hpointer.
  unfold onScroll. run. rewrite Hpointer.
  assert (Hsame : set_pointer (pointer vc) vc = vc) by (by destruct vc).
  rewrite Hsame, Hwidth. run. unfold needUpdate. run.
  by rewrite Hmode, Z.eqb_refl.
Qed.

Lemma onScroll_same_pointer_witness :
  mode (set_pointer (-1) (set_lastWidth (Some 100) sample10)) = REPLACE_MODE /\
  widthHasChanged (set_pointer (-1) (set_lastWidth (Some 100) sample10)) = false /\
  getCurrentPointer (set_pointer (-1) (set_lastWidth (Some 100) sample10))
    = pointer (set_pointer (-1) (set_lastWidth (Some 100) sample10)) /\
  onScroll (set_pointer (-1) (set_lastWidth (Some 100) sample10))
    = (inr tt, set_pointer (-1) (set_lastWidth (Some 100) sample10)).
Proof.
  assert (Hm : mode (set_pointer (-1) (set_lastWidth (Some 100) sample10)) = REPLACE_MODE)
    by (vm_compute; reflexivity).
  assert (Hw : widthHasChanged (set_pointer (-1) (set_lastWidth (Some 100) sample10)) = false)
    by (vm_compute; reflexivity).
  assert (Hp : getCurrentPointer (set_pointer (-1) (set_lastWidth (Some 100) sample10))
               = pointer (set_pointer (-1) (set_lastWidth (Some 100) sample10)))
    by (vm_compute; reflexivity).
  split; [exact Hm|]. split; [exact Hw|]. split; [exact Hp|].
  exact (onScroll_same_pointer _ Hm Hw Hp).
Defined.

(** ** Instance tracker *)

Lemma instances_indexOf_from_absent (this : nat) (l : list nat) (i : Z) :
  this ∉ l -> instances_indexOf_from this l i = -1.
Proof.
  revert i. induction l as [|x l IH]; intros i Hl; simpl; [done|].
  apply not_elem_of_cons in Hl as [Hne Hl].
  destruct (Nat.eqb_spec x this); [congruence|]. by apply IH.
Qed.

Lemma instances_indexOf_from_first (this : nat) (pre post : list nat) (i : Z) :
  this ∉ pre ->
  instances_indexOf_from this (pre ++ this :: post) i = i + Z.of_nat (length pre).
Proof.
  revert i. induction pre as [|x pre IH]; intros i Hpre; simpl.
  - rewrite Nat.eqb_refl. lia.
  - apply not_elem_of_cons in Hpre as [Hne Hpre].
    destruct (Nat.eqb_spec x this); [congruence|]. rewrite IH by done. lia.
Qed.

Lemma instances_indexOf_present (this : nat) (l : list nat) :
  this ∈ l -> 0 <= instances_indexOf this l.
Proof.
  intros Hin. apply list_elem_of_split_l in Hin as (pre & post & -> & Hpre).
  unfold instances_indexOf. rewrite instances_indexOf_from_first by done. lia.
Qed.

(** X25. [trackInstance] throws 'Already tracked' and leaves the registry
    as it was exactly when the instance is in it; otherwise it returns
    normally with the instance added at the end, a registry without
    duplicates stays without duplicates, and tracking the same instance
    again throws. *)
Theorem trackInstance_registers_once (this : nat) (tr : Tracker) :
  (this ∈ instances tr ->
   trackInstance this tr = (inl (Error "Already tracked"), tr)) /\
  (this ∉ instances tr ->
   exists tr',
     trackInstance this tr = (inr tt, tr') /\
     instances tr' = instances tr ++ [this] /\
     instanceTrackerTimer tr' = instanceTrackerTimer tr /\
     trackInstances tr' = trackInstances tr /\
     (NoDup (instances tr) -> NoDup (instances tr')) /\
     trackInstance this tr' = (inl (Error "Already tracked"), tr')).
Proof.
  assert (Hthrows : forall t : Tracker,
             this ∈ instances t ->
             trackInstance this t = (inl (Error "Already tracked"), t)).
  { intros t Hin. unfold trackInstance.
    pose proof (instances_indexOf_present this (instances t) Hin).
    destruct (Z.eqb_spec (instances_indexOf this (instances t)) (-1)); [lia|done]. }
  split; [apply Hthrows|].
  intros Hout. unfold trackInstance at 1. unfold instances_indexOf.
  rewrite instances_indexOf_from_absent by done. simpl.
  eexists. split; [reflexivity|]. simpl. repeat split.
  - intros Hnd. apply NoDup_app. split; [done|]. split.
    + intros x Hx Hsing. apply list_elem_of_singleton in Hsing. by subst.
    + apply NoDup_singleton.
  - apply Hthrows. simpl. apply elem_of_app. right. by apply list_elem_of_singleton.
Qed.

Lemma length_splice1_first (pre post : list nat) (this : nat) :
  splice1 (pre ++ this :: post) (Z.of_nat (length pre)) = pre ++ post.
Proof.
  unfold splice1. rewrite slice_index_in_range by (rewrite length_app; simpl; lia).
  rewrite Nat2Z.id, take_app_length.
  replace (S (length pre)) with (length pre + 1)%nat by lia.
  by rewrite <- drop_drop, drop_app_length.
Qed.

(** X26. What [destroy] does to a registry that is being tracked: an
    instance that is registered is taken out at its first place and the
    others keep their order; for an instance that is NOT registered
    [indexOf] gives -1 and [splice(-1, 1)] takes out the LAST registered
    instance instead; an empty registry stays empty. Without tracking the
    registry is left alone. *)
Theorem destroy_registry_removes (this : nat) (tr : Tracker) :
  (trackInstances tr = true ->
   (forall pre post,
      instances tr = pre ++ this :: post -> this ∉ pre ->
      instances (destroy_registry this tr) = pre ++ post) /\
   (forall rest other,
      instances tr = rest ++ [other] -> this ∉ instances tr ->
      instances (destroy_registry this tr) = rest) /\
   (instances tr = [] -> instances (destroy_registry this tr) = [])) /\
  (trackInstances tr = false -> destroy_registry this tr = tr).
Proof.
  unfold destroy_registry. split.
  - intros ->. simpl. repeat split.
    + intros pre post -> Hpre. unfold instances_indexOf.
      rewrite instances_indexOf_from_first by done. apply length_splice1_first.
    + intros rest other Heq Hout. unfold instances_indexOf.
      rewrite instances_indexOf_from_absent by done. rewrite Heq.
      unfold splice1, slice_index. simpl. rewrite length_app. simpl.
      replace (Z.to_nat (Z.max (Z.of_nat (length rest + 1) + -1) 0))
        with (length rest) by lia.
      rewrite take_app_length, drop_ge by (rewrite length_app; simpl; lia).
      by rewrite app_nil_r.
    + intros ->. done.
  - intros ->. done.
Qed.

(** X27. Only the first [startTracking] starts the sweep: it answers true
    when no timer is set and false otherwise, the timer is set afterwards,
    the registry is untouched, and a second call answers false and changes
    nothing. *)
Theorem startTracking_once (tr : Tracker) :
  (startTracking tr).1 = negb (instanceTrackerTimer tr) /\
  instanceTrackerTimer (startTracking tr).2 = true /\
  instances (startTracking tr).2 = instances tr /\
  (instanceTrackerTimer tr = false -> trackInstances (startTracking tr).2 = true) /\
  startTracking (startTracking tr).2 = (false, (startTracking tr).2).
Proof.
  unfold startTracking. destruct (instanceTrackerTimer tr) eqn:Htimer; simpl.
  - rewrite Htimer. by repeat split.
  - by repeat split.
Qed.
